(** * WebSSH launcher and post-install provisioner

    A shallow embedding of [bin/webssh.js] (the launcher that resolves the
    virtual-environment interpreter, parses the command line, builds the
    child environment and supervises the Python backend) and of
    [scripts/postinstall.js] (the provisioning script that finds Python,
    chooses between uv and pip and builds the virtual environment),
    together with the properties the specification states about them.

    Strings are Rocq strings read as the UTF-8 bytes of the JavaScript
    string.  The host (file system, process environment, command line,
    platform, results of child processes) is a record of oracles; console
    output, file-system probes and child-process calls are recorded in a
    trace, and [process.exit] and JavaScript exceptions are outcomes of a
    small monad. *)

From stdpp Require Import gmap strings list pretty.
From Stdlib Require Import ZArith Ascii String.

Local Open Scope Z_scope.

(** ** The JavaScript built-ins the two scripts rely on *)

Module JS.

(** Number values that [parseInt(_, 10)] can return: [NaN], an
    integer-valued double, or an infinity.  [Fin 0] stands for both zeros:
    [!==], [toString] and template literals do not tell them apart. *)
Inductive number : Type :=
| NaN
| Fin (z : Z)
| Inf (negative : bool).

(** Values a variable of the launcher can hold. *)
Inductive value : Type :=
| Null
| Undefined
| Str (s : string).

(** [ToBoolean] on these values: only a non-empty string is truthy. *)
Definition truthy (v : value) : bool :=
  match v with
  | Str s => negb (String.eqb s "")
  | _ => false
  end.

(** [ToString] on these values. *)
Definition value_to_string (v : value) : string :=
  match v with
  | Null => "null"
  | Undefined => "undefined"
  | Str s => s
  end.

Definition byte_of (c : ascii) : Z := Z.of_nat (nat_of_ascii c).

Definition is_digit (c : ascii) : bool :=
  (48 <=? byte_of c) && (byte_of c <=? 57).

Definition digit_val (c : ascii) : Z := byte_of c - 48.

(** White space and line terminators of ECMAScript, as UTF-8 sequences. *)
Definition ws1 (c : ascii) : bool :=
  let b := byte_of c in
  ((9 <=? b) && (b <=? 13)) || (b =? 32).

Definition ws2 (c1 c2 : ascii) : bool :=
  (byte_of c1 =? 194) && (byte_of c2 =? 160).

Definition ws3 (c1 c2 c3 : ascii) : bool :=
  let b1 := byte_of c1 in
  let b2 := byte_of c2 in
  let b3 := byte_of c3 in
  ((b1 =? 225) && (b2 =? 154) && (b3 =? 128))
  || ((b1 =? 226) && (b2 =? 128)
      && (((128 <=? b3) && (b3 <=? 138)) || (b3 =? 168) || (b3 =? 169)
          || (b3 =? 175)))
  || ((b1 =? 226) && (b2 =? 129) && (b3 =? 159))
  || ((b1 =? 227) && (b2 =? 128) && (b3 =? 128))
  || ((b1 =? 239) && (b2 =? 187) && (b3 =? 191)).

(** [TrimString(_, start)]. *)
Fixpoint trimStart (s : string) : string :=
  match s with
  | String c1 s1 =>
      if ws1 c1 then trimStart s1
      else
        match s1 with
        | String c2 s2 =>
            if ws2 c1 c2 then trimStart s2
            else
              match s2 with
              | String c3 s3 => if ws3 c1 c2 c3 then trimStart s3 else s
              | EmptyString => s
              end
        | EmptyString => s
        end
  | EmptyString => s
  end.

(** The mathematical value of the longest prefix of decimal digits;
    [acc] is [None] until a digit has been read. *)
Fixpoint digits_prefix (s : string) (acc : option Z) : option Z :=
  match s with
  | String c rest =>
      if is_digit c
      then digits_prefix rest (Some (10 * default 0 acc + digit_val c))
      else acc
  | EmptyString => acc
  end.

(** Round a non-negative integer to the nearest binary64 value, ties to
    even; [None] is overflow to infinity. *)
Definition round_to_double (n : Z) : option Z :=
  if n <? 2 ^ 53 then Some n
  else
    let e := Z.log2 n - 52 in
    let q := n / 2 ^ e in
    let r := n mod 2 ^ e in
    let half := 2 ^ (e - 1) in
    let q' := if (half <? r) || ((r =? half) && Z.odd q) then q + 1 else q in
    let v := q' * 2 ^ e in
    if v <? 2 ^ 1024 then Some v else None.

Definition to_number (negative : bool) (mathInt : Z) : number :=
  match round_to_double mathInt with
  | Some v => Fin (if negative then - v else v)
  | None => Inf negative
  end.

(** An optional sign in front of the digits: whether it is a minus, and
    what follows it. *)
Definition strip_sign (s : string) : bool * string :=
  match s with
  | String "-" r => (true, r)
  | String "+" r => (false, r)
  | _ => (false, s)
  end.

(** [parseInt(input, 10)] on a string. *)
Definition parseInt_string (input : string) : number :=
  let '(negative, s) := strip_sign (trimStart input) in
  match digits_prefix s None with
  | None => NaN
  | Some mathInt => to_number negative mathInt
  end.

(** [parseInt(v, 10)]: the argument goes through [ToString] first. *)
Definition parseInt (v : value) : number :=
  parseInt_string (value_to_string v).

(** The rounding interval of the double [v >= 2^53], scaled by four, and
    whether its end points round to [v]. *)
Definition rounding_interval4 (v : Z) : Z * Z * bool :=
  let e := Z.log2 v - 52 in
  let q := v / 2 ^ e in
  let down := if q =? 2 ^ 52 then 2 ^ e else 2 ^ (e + 1) in
  (4 * v - down, 4 * v + 2 ^ (e + 1), Z.even q).

Definition rounds_to (v m : Z) : bool :=
  let '(lo, hi, closed) := rounding_interval4 v in
  if closed then (lo <=? 4 * m) && (4 * m <=? hi)
  else (lo <? 4 * m) && (4 * m <? hi).

(** The multiple of [10^j] that rounds to [v] and is nearest to it. *)
Definition nearest_multiple (v : Z) (j : nat) : option Z :=
  let p := 10 ^ Z.of_nat j in
  let c0 := v / p * p in
  let c1 := c0 + p in
  match rounds_to v c0, rounds_to v c1 with
  | true, true =>
      if v - c0 <? c1 - v then Some c0
      else if c1 - v <? v - c0 then Some c1
      else if Z.even (v / p) then Some c0 else Some c1
  | true, false => Some c0
  | false, true => Some c1
  | false, false => None
  end.

(** The shortest decimal that rounds to [v]: the largest power of ten
    with a multiple in the rounding interval. *)
Fixpoint shortest_decimal (v : Z) (j : nat) : Z :=
  match nearest_multiple v j with
  | Some m => m
  | None => match j with O => v | S j' => shortest_decimal v j' end
  end.

Fixpoint strip_zeros_rev (l : list ascii) : list ascii :=
  match l with
  | c :: l' => if Ascii.eqb c "0" then strip_zeros_rev l' else l
  | [] => []
  end.

Definition strip_trailing_zeros (s : string) : string :=
  string_of_list_ascii
    (rev (strip_zeros_rev (rev (list_ascii_of_string s)))).

(** [Number::toString] of a positive integer-valued double. *)
Definition pos_to_string (v : Z) : string :=
  if v <? 2 ^ 53 then pretty v
  else
    let digits := pretty (shortest_decimal v (String.length (pretty v))) in
    let n := String.length digits in
    if (n <=? 21)%nat then digits
    else
      match strip_trailing_zeros digits with
      | String d EmptyString =>
          String d ("e+" +:+ pretty (Z.of_nat n - 1))
      | String d rest =>
          String d ("." +:+ rest +:+ "e+" +:+ pretty (Z.of_nat n - 1))
      | EmptyString => digits
      end.

(** [Number.prototype.toString()], also used by template literals. *)
Definition toString (x : number) : string :=
  match x with
  | NaN => "NaN"
  | Inf false => "Infinity"
  | Inf true => "-Infinity"
  | Fin z =>
      if z =? 0 then "0"
      else if z <? 0 then "-" +:+ pos_to_string (- z)
      else pos_to_string z
  end.

(** [x !== 8765]-style strict inequality with an integer literal. *)
Definition strict_ne (x : number) (k : Z) : bool :=
  match x with
  | Fin z => negb (z =? k)
  | _ => true
  end.

(** [String.prototype.includes]. *)
Fixpoint includes (hay needle : string) : bool :=
  String.prefix needle hay
  || match hay with
     | String _ rest => includes rest needle
     | EmptyString => false
     end.

End JS.

(** ** The host and the effects of a script *)

(** What [spawnSync] returns: [status] is [null] when the command could
    not be run or was ended by a signal, and then [stdout] is [null]
    as well. *)
Record spawnSyncResult : Type := {
  status : option Z;
  stdout : option string
}.

(** [execSync] either returns or throws an [Error] with a message. *)
Inductive execResult : Type :=
| ExecOk
| ExecFail (message : string).

(** Everything the scripts read from the machine they run on.  Each
    command is run at most once per invocation, so the results of child
    processes are functions of the command alone. *)
Record host : Type := {
  dirname : string;                                   (* __dirname *)
  path_join : list string -> string;                  (* path.join *)
  existsSync : string -> bool;                        (* fs.existsSync *)
  process_env : gmap string string;                   (* process.env *)
  argv : list string;                                 (* process.argv *)
  platform : string;                                  (* process.platform *)
  spawnSync : string -> list string -> spawnSyncResult;
  execSync : string -> execResult
}.

(** The options object passed to [spawn]. *)
Record spawn_call : Type := {
  spawn_exe : string;
  spawn_args : list string;
  spawn_cwd : string;
  spawn_env : gmap string string;
  spawn_stdio : string
}.

(** Observable effects, in the order they happen. *)
Inductive event : Type :=
| ExistsSync (path : string)
| ConsoleLog (line : string)
| ConsoleError (line : string)
| SpawnSync (cmd : string) (args : list string)
| ExecSync (cmd : string) (cwd : string)
| Spawn (call : spawn_call)
| Kill (signal : string).

(** How a piece of script ends: it yields a value, throws, or calls
    [process.exit]. *)
Inductive outcome (A : Type) : Type :=
| Ret (a : A)
| Throw (message : string)
| Exit (code : Z).
Arguments Ret {A} a.
Arguments Throw {A} message.
Arguments Exit {A} code.

Definition prog (A : Type) : Type := list event * outcome A.

#[global] Instance prog_ret : MRet prog := fun A a => ([], Ret a).

#[global] Instance prog_bind : MBind prog := fun A B f m =>
  match m with
  | (t, Ret a) => let '(t', r) := f a in (t ++ t', r)
  | (t, Throw msg) => (t, Throw msg)
  | (t, Exit code) => (t, Exit code)
  end.

Definition emit (e : event) : prog unit := ([e], Ret tt).

Definition throw {A : Type} (message : string) : prog A := ([], Throw message).

(** [process.exit(code)]. *)
Definition process_exit {A : Type} (code : Z) : prog A := ([], Exit code).

(** [try { body } catch (e) { handler(e.message) }]; [process.exit] is not
    an exception and passes through. *)
Definition try_catch {A : Type} (body : prog A) (handler : string -> prog A)
  : prog A :=
  match body with
  | (t, Throw msg) => let '(t', r) := handler msg in (t ++ t', r)
  | other => other
  end.

(** [console.log] and [console.error] print their arguments separated by
    a space. *)
Definition join_space (parts : list string) : string :=
  String.concat " " parts.

Definition console_log (parts : list string) : prog unit :=
  emit (ConsoleLog (join_space parts)).

Definition console_error (parts : list string) : prog unit :=
  emit (ConsoleError (join_space parts)).

Definition fs_existsSync (h : host) (path : string) : prog bool :=
  emit (ExistsSync path) ;; mret (existsSync h path).

Definition dquote : string := String (ascii_of_nat 34) EmptyString.

Definition newline : string := String (ascii_of_nat 10) EmptyString.

(** The spawn calls, the shell commands and the version probes found in a
    trace. *)
Definition spawn_calls (t : list event) : list spawn_call :=
  omap (fun e => match e with Spawn c => Some c | _ => None end) t.

Definition exec_calls (t : list event) : list string :=
  omap (fun e => match e with ExecSync c _ => Some c | _ => None end) t.

Definition probe_calls (t : list event) : list string :=
  omap (fun e => match e with SpawnSync c _ => Some c | _ => None end) t.

(** ** bin/webssh.js *)

Module Webssh.

Definition pythonDir (h : host) : string :=
  path_join h [dirname h; ".."; "python"].

Definition venvDir (h : host) : string :=
  path_join h [pythonDir h; ".venv"].

Definition mainPy (h : host) : string :=
  path_join h [pythonDir h; "main.py"].

Definition posix_python (h : host) : string :=
  path_join h [venvDir h; "bin"; "python"].

Definition windows_python (h : host) : string :=
  path_join h [venvDir h; "Scripts"; "python.exe"].

(** Lines 11-21: determine the Python executable. *)
Definition resolve_python (h : host) : prog string :=
  found ← fs_existsSync h (posix_python h);
  if found : bool then mret (posix_python h)
  else
    found ← fs_existsSync h (windows_python h);
    if found : bool then mret (windows_python h)
    else
      console_error ["Error: Python virtual environment not found."] ;;
      console_error ["Please run: npm run postinstall"] ;;
      process_exit 1.

(** The usage text, a template literal that starts and ends with a line
    break. *)
Definition usage : string :=
  String.concat newline
    [EmptyString;
     "WebSSH - Touch-friendly web-based terminal";
     EmptyString;
     "Usage: webssh [options]";
     EmptyString;
     "Options:";
     "  -p, --port <port>    Port to listen on (default: 8765)";
     "  -c, --config <path>  Path to config.json";
     "  -h, --help           Show this help message";
     EmptyString;
     "Example:";
     "  webssh";
     "  webssh -p 8080";
     "  webssh -c /path/to/config.json";
     EmptyString].

Definition is_port_flag (a : string) : bool :=
  String.eqb a "-p" || String.eqb a "--port".

Definition is_config_flag (a : string) : bool :=
  String.eqb a "-c" || String.eqb a "--config".

Definition is_help_flag (a : string) : bool :=
  String.eqb a "-h" || String.eqb a "--help".

(** Lines 28-53: the argument loop.  The list is [args.slice(i)]; an
    option that takes a value reads [args[i + 1]] ([undefined] past the
    end) and skips it. *)
Fixpoint parse_args (args : list string) (port : JS.number)
    (configPath : JS.value) : prog (JS.number * JS.value) :=
  match args with
  | [] => mret (port, configPath)
  | a :: rest =>
      if is_port_flag a then
        match rest with
        | v :: rest' => parse_args rest' (JS.parseInt (JS.Str v)) configPath
        | [] => mret (JS.parseInt JS.Undefined, configPath)
        end
      else if is_config_flag a then
        match rest with
        | v :: rest' => parse_args rest' port (JS.Str v)
        | [] => mret (port, JS.Undefined)
        end
      else if is_help_flag a then
        console_log [usage] ;; process_exit 0
      else parse_args rest port configPath
  end.

(** Lines 56-62: the environment of the child. *)
Definition child_env (h : host) (port : JS.number) (configPath : JS.value)
  : gmap string string :=
  let env := process_env h in
  let env :=
    if JS.strict_ne port 8765
    then <["WEBSSH_PORT" := JS.toString port]> env else env in
  if JS.truthy configPath
  then <["WEBSSH_CONFIG" := JS.value_to_string configPath]> env else env.

(** Lines 56-72: announce the port and start the Python server. *)
Definition launch (h : host) (pythonExe : string) (port : JS.number)
    (configPath : JS.value) : prog unit :=
  let env := child_env h port configPath in
  console_log ["Starting WebSSH on port " +:+ JS.toString port +:+ "..."] ;;
  console_log
    ["Open http://localhost:" +:+ JS.toString port +:+ "/ in your browser"] ;;
  emit (Spawn {| spawn_exe := pythonExe;
                 spawn_args := [mainPy h];
                 spawn_cwd := pythonDir h;
                 spawn_env := env;
                 spawn_stdio := "inherit" |}).

(** The top-level script up to and including the call of [spawn]. *)
Definition main (h : host) : prog unit :=
  pythonExe ← resolve_python h;
  '(port, configPath) ← parse_args (drop 2 (argv h)) (JS.Fin 8765) JS.Null;
  launch h pythonExe port configPath.

(** Signals that have a handler. *)
Inductive signal : Type := SIGINT | SIGTERM.

(** What the event loop can deliver once the handlers are registered.
    The exit code of ['close'] is [null] when the child was ended by a
    signal. *)
Inductive async_event : Type :=
| Signal (s : signal)
| ChildError (message : string)
| ChildClose (code : option Z).

(** Lines 74-77. *)
Definition on_error (message : string) : prog unit :=
  console_error ["Failed to start WebSSH:"; message] ;; process_exit 1.

(** [code || 0]: [null] and [0] are falsy. *)
Definition or_zero (code : option Z) : Z :=
  match code with
  | Some c => if c =? 0 then 0 else c
  | None => 0
  end.

(** Lines 79-81. *)
Definition on_close (code : option Z) : prog unit :=
  process_exit (or_zero code).

(** Lines 84-86 and 88-90. *)
Definition on_SIGINT : prog unit := emit (Kill "SIGINT").

Definition on_SIGTERM : prog unit := emit (Kill "SIGTERM").

Definition dispatch (ev : async_event) : prog unit :=
  match ev with
  | Signal SIGINT => on_SIGINT
  | Signal SIGTERM => on_SIGTERM
  | ChildError message => on_error message
  | ChildClose code => on_close code
  end.

(** The handlers run one event at a time until one of them exits. *)
Fixpoint event_loop (evs : list async_event) : prog unit :=
  match evs with
  | [] => mret tt
  | ev :: rest => dispatch ev ;; event_loop rest
  end.

(** A whole invocation: the script, then the events delivered to it. *)
Definition run (h : host) (evs : list async_event) : prog unit :=
  main h ;; event_loop evs.

Definition signal_name (s : signal) : string :=
  match s with
  | SIGINT => "SIGINT"
  | SIGTERM => "SIGTERM"
  end.

(** Argument lists that the loop consumes in whole iterations without
    meeting a help flag: an option that takes a value comes with the
    argument after it, whatever that argument is. *)
Inductive whole_options : list string -> Prop :=
| whole_nil : whole_options []
| whole_port a v l :
    is_port_flag a = true -> whole_options l -> whole_options (a :: v :: l)
| whole_config a v l :
    is_port_flag a = false -> is_config_flag a = true ->
    whole_options l -> whole_options (a :: v :: l)
| whole_other a l :
    is_port_flag a = false -> is_config_flag a = false ->
    is_help_flag a = false -> whole_options l -> whole_options (a :: l).

(** [args[i + 1]] when [rest] is what follows [args[i]]. *)
Definition next_arg (rest : list string) : JS.value :=
  match rest with
  | v :: _ => JS.Str v
  | [] => JS.Undefined
  end.

End Webssh.

(** ** scripts/postinstall.js *)

Module Postinstall.

Definition pythonDir (h : host) : string :=
  path_join h [dirname h; ".."; "python"].

Definition venvDir (h : host) : string :=
  path_join h [pythonDir h; ".venv"].

(** [spawnSync(cmd, args, { encoding: 'utf-8' })]. *)
Definition child_spawnSync (h : host) (cmd : string) (args : list string)
  : prog spawnSyncResult :=
  emit (SpawnSync cmd args) ;; mret (spawnSync h cmd args).

(** [execSync(cmd, { cwd, stdio: 'inherit' })] throws when the command
    fails. *)
Definition child_execSync (h : host) (cmd cwd : string) : prog unit :=
  emit (ExecSync cmd cwd) ;;
  match execSync h cmd with
  | ExecOk => mret tt
  | ExecFail message => throw message
  end.

(** [result.status === k]. *)
Definition status_is (r : spawnSyncResult) (k : Z) : bool :=
  match status r with
  | Some c => c =? k
  | None => false
  end.

(** [result.stdout.includes(needle)]: a [TypeError] when [stdout] is
    [null]. *)
Definition stdout_includes (r : spawnSyncResult) (needle : string)
  : prog bool :=
  match stdout r with
  | Some s => mret (JS.includes s needle)
  | None => throw "Cannot read properties of null (reading 'includes')"
  end.

Definition pythonCommands : list string := ["python3"; "python"].

(** A probe that exited with status 0 and printed [Python 3] somewhere
    in its output. *)
Definition qualifies (r : spawnSyncResult) : bool :=
  match status r, stdout r with
  | Some c, Some out => (c =? 0) && JS.includes out "Python 3"
  | _, _ => false
  end.

(** The probe of one candidate, as it shows in the trace. *)
Definition version_probe (cmd : string) : event :=
  SpawnSync cmd ["--version"].

(** Lines 15-25: the loop of [findPython] over the remaining candidates. *)
Fixpoint findPython_loop (h : host) (cmds : list string) : prog JS.value :=
  match cmds with
  | [] => mret JS.Null
  | cmd :: rest =>
      hit ← try_catch
              (result ← child_spawnSync h cmd ["--version"];
               if status_is result 0
               then stdout_includes result "Python 3"
               else mret false)
              (fun _ => mret false);
      if hit : bool then mret (JS.Str cmd) else findPython_loop h rest
  end.

Definition findPython (h : host) : prog JS.value :=
  findPython_loop h pythonCommands.

(** Lines 29-36. *)
Definition hasUv (h : host) : prog bool :=
  try_catch
    (result ← child_spawnSync h "uv" ["--version"];
     mret (status_is result 0))
    (fun _ => mret false).

Definition packages : string := "fastapi uvicorn websockets".

Definition uv_venv_cmd (h : host) : string :=
  "uv venv " +:+ dquote +:+ venvDir h +:+ dquote.

Definition uv_install_cmd (h : host) : string :=
  "uv pip install --python " +:+ dquote +:+ venvDir h +:+ dquote
  +:+ " " +:+ packages.

Definition python_venv_cmd (h : host) (python : string) : string :=
  python +:+ " -m venv " +:+ dquote +:+ venvDir h +:+ dquote.

(** Lines 67-70. *)
Definition pipPath (h : host) : string :=
  let isWindows := String.eqb (platform h) "win32" in
  if isWindows
  then path_join h [venvDir h; "Scripts"; "pip.exe"]
  else path_join h [venvDir h; "bin"; "pip"].

Definition pip_install_cmd (h : host) : string :=
  dquote +:+ pipPath h +:+ dquote +:+ " install " +:+ packages.

(** Lines 48-81: create the virtual environment and install into it. *)
Definition provision (h : host) (python : JS.value) : prog unit :=
  uv ← hasUv h;
  if uv : bool then
    console_log ["Using uv for faster installation..."] ;;
    try_catch
      (child_execSync h (uv_venv_cmd h) (pythonDir h) ;;
       child_execSync h (uv_install_cmd h) (pythonDir h))
      (fun message =>
         console_error ["Failed to set up environment with uv:"; message] ;;
         process_exit 1)
  else
    console_log ["Using pip for installation..."] ;;
    try_catch
      (child_execSync h
         (python_venv_cmd h (JS.value_to_string python)) (pythonDir h) ;;
       child_execSync h (pip_install_cmd h) (pythonDir h))
      (fun message =>
         console_error ["Failed to set up environment with pip:"; message] ;;
         process_exit 1).

(** The whole script. *)
Definition main (h : host) : prog unit :=
  console_log ["Setting up WebSSH Python environment..."] ;;
  python ← findPython h;
  (if negb (JS.truthy python) then
     console_error ["Error: Python 3 is required but not found."] ;;
     console_error ["Please install Python 3.10 or later."] ;;
     process_exit 1
   else mret tt) ;;
  console_log ["Found " +:+ JS.value_to_string python] ;;
  provision h python ;;
  console_log [""] ;;
  console_log ["WebSSH installation complete!"] ;;
  console_log
    ["Run " +:+ dquote +:+ "webssh" +:+ dquote +:+ " to start the server."].

End Postinstall.

(** ** Sample hosts *)

Module Sample.

Fixpoint split_on (sep : ascii) (s : string) : list string :=
  match s with
  | EmptyString => [EmptyString]
  | String c rest =>
      if Ascii.eqb c sep then EmptyString :: split_on sep rest
      else
        match split_on sep rest with
        | seg :: segs => String c seg :: segs
        | [] => [String c EmptyString]
        end
  end.

(** Resolve [.] and [..] segments; [stack] holds the kept segments, last
    one first. *)
Fixpoint resolve_dots (absolute : bool) (segs stack : list string)
  : list string :=
  match segs with
  | [] => rev stack
  | seg :: rest =>
      if String.eqb seg "" || String.eqb seg "." then
        resolve_dots absolute rest stack
      else if String.eqb seg ".." then
        match stack with
        | top :: below =>
            if String.eqb top ".."
            then resolve_dots absolute rest (".." :: stack)
            else resolve_dots absolute rest below
        | [] =>
            if absolute then resolve_dots absolute rest []
            else resolve_dots absolute rest [".."]
        end
      else resolve_dots absolute rest (seg :: stack)
  end.

Definition ends_with_slash (s : string) : bool :=
  match rev (list_ascii_of_string s) with
  | c :: _ => Ascii.eqb c "/"
  | [] => false
  end.

(** [path.posix.normalize]. *)
Definition posix_normalize (path : string) : string :=
  if String.eqb path "" then "."
  else
    let absolute := String.prefix "/" path in
    let trailing := ends_with_slash path in
    let body :=
      String.concat "/" (resolve_dots absolute (split_on "/" path) []) in
    if String.eqb body "" then
      (if absolute then "/" else if trailing then "./" else ".")
    else
      let body := if trailing then body +:+ "/" else body in
      if absolute then "/" +:+ body else body.

(** [path.posix.join]. *)
Definition posix_join (parts : list string) : string :=
  let joined :=
    String.concat "/" (filter (fun s => s ≠ "") parts) in
  if String.eqb joined "" then "." else posix_normalize joined.

(** A Linux host with the package under [/opt/webssh]: the files that
    exist, the inherited environment, the arguments after the script name,
    and the results of the commands. *)
Definition linux_host (files : list string) (env : gmap string string)
    (args : list string)
    (probe : string -> spawnSyncResult) (exec : string -> execResult)
  : host :=
  {| dirname := "/opt/webssh/bin";
     path_join := posix_join;
     existsSync := fun p => existsb (String.eqb p) files;
     process_env := env;
     argv := "/usr/bin/node" :: "/opt/webssh/bin/webssh.js" :: args;
     platform := "linux";
     spawnSync := fun cmd _ => probe cmd;
     execSync := exec |}.

Definition not_found : spawnSyncResult :=
  {| status := None; stdout := None |}.

Definition prints (out : string) : spawnSyncResult :=
  {| status := Some 0; stdout := Some out |}.

Definition venv_python : string := "/opt/webssh/python/.venv/bin/python".

(** A provisioned host started with the given arguments. *)
Definition launch_host (env : gmap string string) (args : list string)
  : host :=
  linux_host [venv_python] env args (fun _ => not_found) (fun _ => ExecOk).

(** A provisioned host whose own environment already sets the port. *)
Definition inherited_port_host : host :=
  launch_host {["WEBSSH_PORT" := "9000"]} [].

(** A provisioned host started with [-c --help]. *)
Definition help_as_value_host : host := launch_host ∅ ["-c"; "--help"].

(** A provisioned host started with [-p abc -p 9000]. *)
Definition port_twice_host : host :=
  launch_host ∅ ["-p"; "abc"; "-p"; "9000"].

(** A host at install time: which commands answer [--version] and how,
    and which shell commands fail. *)
Definition install_host (probe : string -> spawnSyncResult)
    (exec : string -> execResult) : host :=
  linux_host [] ∅ [] probe exec.

(** Only [python] answers, and it is a Python 3. *)
Definition probe_python_only (cmd : string) : spawnSyncResult :=
  if String.eqb cmd "python" then prints "Python 3.11.2" else not_found.

(** [python3] and [uv] both answer. *)
Definition probe_python3_and_uv (cmd : string) : spawnSyncResult :=
  if String.eqb cmd "python3" then prints "Python 3.12.1"
  else if String.eqb cmd "uv" then prints "uv 0.4.18"
  else not_found.

(** Every shell command succeeds except those that start with
    [start], which fail with [message]. *)
Definition fails_on (start message cmd : string) : execResult :=
  if String.prefix start cmd then ExecFail message else ExecOk.

End Sample.

(** ** Sanity checks of the built-ins *)

Example parseInt_samples :
  JS.parseInt (JS.Str "8080") = JS.Fin 8080
  /\ JS.parseInt (JS.Str "  -42px") = JS.Fin (-42)
  /\ JS.parseInt (JS.Str "abc") = JS.NaN
  /\ JS.parseInt (JS.Str "") = JS.NaN
  /\ JS.parseInt JS.Undefined = JS.NaN
  /\ JS.parseInt (JS.Str "0x10") = JS.Fin 0
  /\ JS.parseInt (JS.Str "9007199254740993") = JS.Fin 9007199254740992
  /\ JS.parseInt (JS.Str "9007199254740995") = JS.Fin 9007199254740996.
Proof. vm_compute. repeat split. Qed.

Example toString_samples :
  JS.toString (JS.Fin 8080) = "8080"
  /\ JS.toString (JS.Fin (-42)) = "-42"
  /\ JS.toString JS.NaN = "NaN"
  /\ JS.toString (JS.Fin (2 ^ 60)) = "1152921504606847000"
  /\ JS.toString (JS.Fin (2 ^ 64)) = "18446744073709552000"
  /\ JS.toString (JS.Fin (10 ^ 21)) = "1e+21"
  /\ JS.toString (JS.Fin (2 ^ 70)) = "1.1805916207174113e+21"
  /\ JS.toString (JS.parseInt (JS.Str "123456789012345678901234567890"))
     = "1.2345678901234568e+29".
Proof. vm_compute. repeat split. Qed.

Example usage_length : String.length Webssh.usage = 294%nat.
Proof. reflexivity. Qed.

Example posix_join_samples :
  Sample.posix_join ["/opt/webssh/bin"; ".."; "python"] = "/opt/webssh/python"
  /\ Sample.posix_join ["/opt/webssh/python/.venv"; "bin"; "pip"]
     = "/opt/webssh/python/.venv/bin/pip"
  /\ Sample.posix_join ["a"; ""; "./b"; "../../.."] = ".."
  /\ Sample.posix_join ["a"; "../"] = "./"
  /\ Sample.posix_join ["/a"; "../"] = "/"
  /\ Sample.posix_join ["a"; "b/"] = "a/b/".
Proof. vm_compute. repeat split. Qed.

(** ** Laws of the effect monad *)

Lemma bind_ret {A B : Type} (t : list event) (a : A) (f : A -> prog B) :
  ((t, Ret a) : prog A) ≫= f = (t ++ (f a).1, (f a).2).
Proof. unfold mbind, prog_bind. by destruct (f a). Qed.

Lemma bind_exit {A B : Type} (t : list event) (code : Z) (f : A -> prog B) :
  ((t, Exit code) : prog A) ≫= f = (t, Exit code).
Proof. reflexivity. Qed.

Lemma bind_throw {A B : Type} (t : list event) (msg : string)
    (f : A -> prog B) :
  ((t, Throw msg) : prog A) ≫= f = (t, Throw msg).
Proof. reflexivity. Qed.

Lemma bind_assoc {A B C : Type} (m : prog A) (f : A -> prog B)
    (g : B -> prog C) :
  (m ≫= f) ≫= g = m ≫= (fun a => f a ≫= g).
Proof.
  destruct m as [t [a | msg | code]]; try reflexivity.
  unfold mbind, prog_bind.
  destruct (f a) as [t1 [b | msg | code]]; try reflexivity.
  destruct (g b) as [t2 r]. by rewrite app_assoc.
Qed.

Lemma console_log_bind {B : Type} (parts : list string)
    (f : unit -> prog B) :
  console_log parts ≫= f
  = (ConsoleLog (join_space parts) :: (f tt).1, (f tt).2).
Proof. unfold console_log, emit. by rewrite bind_ret. Qed.

(** ** The supervisor's handlers *)

Lemma or_zero_some (c : Z) : Webssh.or_zero (Some c) = c.
Proof. unfold Webssh.or_zero. destruct (Z.eqb_spec c 0); congruence. Qed.

Lemma dispatch_signal (s : Webssh.signal) :
  Webssh.dispatch (Webssh.Signal s) = ([Kill (Webssh.signal_name s)], Ret tt).
Proof. by destruct s. Qed.

(** A run of signals is forwarded one by one, and the loop goes on with
    what follows. *)
Lemma event_loop_signals (sigs : list Webssh.signal)
    (rest : list Webssh.async_event) :
  Webssh.event_loop ((Webssh.Signal <$> sigs) ++ rest)
  = (((fun s => Kill (Webssh.signal_name s)) <$> sigs)
       ++ (Webssh.event_loop rest).1,
     (Webssh.event_loop rest).2).
Proof.
  induction sigs as [| s sigs IH].
  - simpl. by destruct (Webssh.event_loop rest).
  - rewrite !fmap_cons.
    change (Webssh.event_loop
              ((Webssh.Signal s :: (Webssh.Signal <$> sigs)) ++ rest))
      with (Webssh.dispatch (Webssh.Signal s) ;;
            Webssh.event_loop ((Webssh.Signal <$> sigs) ++ rest)).
    rewrite dispatch_signal, bind_ret, IH. reflexivity.
Qed.

Lemma event_loop_close (code : option Z) (rest : list Webssh.async_event) :
  Webssh.event_loop (Webssh.ChildClose code :: rest)
  = ([], Exit (Webssh.or_zero code)).
Proof. reflexivity. Qed.

Lemma event_loop_error (message : string)
    (rest : list Webssh.async_event) :
  Webssh.event_loop (Webssh.ChildError message :: rest)
  = ([ConsoleError ("Failed to start WebSSH: " +:+ message)], Exit 1).
Proof. reflexivity. Qed.

Lemma run_running (h : host) (t : list event)
    (evs : list Webssh.async_event) :
  Webssh.main h = (t, Ret tt) ->
  Webssh.run h evs
  = (t ++ (Webssh.event_loop evs).1, (Webssh.event_loop evs).2).
Proof. intros Hmain. unfold Webssh.run. by rewrite Hmain, bind_ret. Qed.

Lemma run_exited (h : host) (t : list event) (code : Z)
    (evs : list Webssh.async_event) :
  Webssh.main h = (t, Exit code) -> Webssh.run h evs = (t, Exit code).
Proof. intros Hmain. unfold Webssh.run. by rewrite Hmain. Qed.

(** ** The launcher: interpreter resolution and argument parsing *)

Lemma resolve_python_posix (h : host) :
  existsSync h (Webssh.posix_python h) = true ->
  Webssh.resolve_python h
  = ([ExistsSync (Webssh.posix_python h)], Ret (Webssh.posix_python h)).
Proof.
  intros Hp. unfold Webssh.resolve_python, fs_existsSync.
  simpl. by rewrite Hp.
Qed.

Lemma resolve_python_windows (h : host) :
  existsSync h (Webssh.posix_python h) = false ->
  existsSync h (Webssh.windows_python h) = true ->
  Webssh.resolve_python h
  = ([ExistsSync (Webssh.posix_python h);
      ExistsSync (Webssh.windows_python h)],
     Ret (Webssh.windows_python h)).
Proof.
  intros Hp Hw. unfold Webssh.resolve_python, fs_existsSync.
  simpl. rewrite Hp. simpl. by rewrite Hw.
Qed.

Lemma resolve_python_missing (h : host) :
  existsSync h (Webssh.posix_python h) = false ->
  existsSync h (Webssh.windows_python h) = false ->
  Webssh.resolve_python h
  = ([ExistsSync (Webssh.posix_python h);
      ExistsSync (Webssh.windows_python h);
      ConsoleError "Error: Python virtual environment not found.";
      ConsoleError "Please run: npm run postinstall"],
     Exit 1).
Proof.
  intros Hp Hw. unfold Webssh.resolve_python, fs_existsSync.
  simpl. rewrite Hp. simpl. by rewrite Hw.
Qed.

(** When an interpreter exists the resolution only probes the file system
    and yields a path that exists. *)
Lemma resolve_python_found (h : host) :
  existsSync h (Webssh.posix_python h) = true
  \/ existsSync h (Webssh.windows_python h) = true ->
  exists probes exe,
    Webssh.resolve_python h = (probes, Ret exe)
    /\ existsSync h exe = true
    /\ spawn_calls probes = [] /\ exec_calls probes = []
    /\ probe_calls probes = [].
Proof.
  intros Hex.
  destruct (existsSync h (Webssh.posix_python h)) eqn:Hp.
  - eexists _, _. split; [by apply resolve_python_posix |]. by rewrite Hp.
  - destruct Hex as [Hex | Hw]; [discriminate |].
    eexists _, _. split; [by apply resolve_python_windows |]. by rewrite Hw.
Qed.

(** Induction that follows the loop: it advances by one or two
    arguments. *)
Lemma args_ind (P : list string -> Prop) :
  P [] ->
  (forall a, P [a]) ->
  (forall a b l, P l -> P (b :: l) -> P (a :: b :: l)) ->
  forall l, P l.
Proof.
  intros Hnil Hone Hstep l.
  enough (P l /\ forall a, P (a :: l)) as [Hl _] by exact Hl.
  induction l as [| b l [IHl IHcons]]; split; auto.
Qed.

Lemma join_space_single (s : string) : join_space [s] = s.
Proof. reflexivity. Qed.

(** The loop never throws and never rejects an argument: it either
    finishes with a configuration or prints the usage text and exits
    with 0. *)
Lemma parse_args_outcome (args : list string) :
  forall port cfg,
    (exists port' cfg',
        Webssh.parse_args args port cfg = ([], Ret (port', cfg')))
    \/ Webssh.parse_args args port cfg
       = ([ConsoleLog Webssh.usage], Exit 0).
Proof.
  induction args as [| a | a b l IHl IHbl] using args_ind; intros port cfg.
  - left. by eexists _, _.
  - simpl. destruct (Webssh.is_port_flag a); [left; by eexists _, _ |].
    destruct (Webssh.is_config_flag a); [left; by eexists _, _ |].
    destruct (Webssh.is_help_flag a); [by right | left; by eexists _, _].
  - cbn [Webssh.parse_args].
    destruct (Webssh.is_port_flag a); [apply IHl |].
    destruct (Webssh.is_config_flag a); [apply IHl |].
    destruct (Webssh.is_help_flag a); [by right | apply IHbl].
Qed.

(** The script, by cases on how its two first phases end. *)
Lemma main_spawns (h : host) (t0 : list event) (exe : string)
    (port : JS.number) (cfg : JS.value) :
  Webssh.resolve_python h = (t0, Ret exe) ->
  Webssh.parse_args (drop 2 (argv h)) (JS.Fin 8765) JS.Null
  = ([], Ret (port, cfg)) ->
  Webssh.main h = (t0 ++ (Webssh.launch h exe port cfg).1, Ret tt).
Proof.
  intros Hres Hparse. unfold Webssh.main.
  rewrite Hres, bind_ret, Hparse, bind_ret. reflexivity.
Qed.

Lemma main_help (h : host) (t0 : list event) (exe : string) :
  Webssh.resolve_python h = (t0, Ret exe) ->
  Webssh.parse_args (drop 2 (argv h)) (JS.Fin 8765) JS.Null
  = ([ConsoleLog Webssh.usage], Exit 0) ->
  Webssh.main h = (t0 ++ [ConsoleLog Webssh.usage], Exit 0).
Proof.
  intros Hres Hparse. unfold Webssh.main.
  rewrite Hres, bind_ret, Hparse. reflexivity.
Qed.

Lemma main_missing (h : host) (t0 : list event) (code : Z) :
  Webssh.resolve_python h = (t0, Exit code) ->
  Webssh.main h = (t0, Exit code).
Proof. intros Hres. unfold Webssh.main. by rewrite Hres. Qed.

(** The three ways the script can end: a child was spawned with an
    interpreter that was seen on disk, the usage text was printed, or no
    interpreter was found. *)
Lemma main_cases (h : host) :
  (exists t0 exe port cfg,
      Webssh.resolve_python h = (t0, Ret exe)
      /\ Webssh.parse_args (drop 2 (argv h)) (JS.Fin 8765) JS.Null
         = ([], Ret (port, cfg))
      /\ Webssh.main h = (t0 ++ (Webssh.launch h exe port cfg).1, Ret tt)
      /\ existsSync h exe = true
      /\ spawn_calls t0 = [])
  \/ (exists t0 exe,
        Webssh.resolve_python h = (t0, Ret exe)
        /\ Webssh.main h = (t0 ++ [ConsoleLog Webssh.usage], Exit 0)
        /\ spawn_calls t0 = [])
  \/ (existsSync h (Webssh.posix_python h) = false
      /\ existsSync h (Webssh.windows_python h) = false
      /\ Webssh.main h = ((Webssh.resolve_python h).1, Exit 1)).
Proof.
  destruct (existsSync h (Webssh.posix_python h)) eqn:Hp;
    [| destruct (existsSync h (Webssh.windows_python h)) eqn:Hw].
  3: { right; right. repeat split.
       rewrite (main_missing h _ 1 (resolve_python_missing h Hp Hw)).
       by rewrite (resolve_python_missing h Hp Hw). }
  all: destruct (parse_args_outcome (drop 2 (argv h)) (JS.Fin 8765) JS.Null)
         as [(port & cfg & Hparse) | Hparse].
  - pose proof (resolve_python_posix h Hp) as Hres.
    left. eexists _, _, _, _. repeat split; eauto using main_spawns.
  - pose proof (resolve_python_posix h Hp) as Hres.
    right; left. eexists _, _. repeat split; eauto using main_help.
  - pose proof (resolve_python_windows h Hp Hw) as Hres.
    left. eexists _, _, _, _. repeat split; eauto using main_spawns.
  - pose proof (resolve_python_windows h Hp Hw) as Hres.
    right; left. eexists _, _. repeat split; eauto using main_help.
Qed.

(** Whenever the script returns, it has spawned exactly one child. *)
Lemma main_running (h : host) (t : list event) :
  Webssh.main h = (t, Ret tt) ->
  exists t0 exe port cfg,
    Webssh.resolve_python h = (t0, Ret exe)
    /\ Webssh.parse_args (drop 2 (argv h)) (JS.Fin 8765) JS.Null
       = ([], Ret (port, cfg))
    /\ t = t0 ++ (Webssh.launch h exe port cfg).1
    /\ existsSync h exe = true
    /\ spawn_calls t0 = [].
Proof.
  intros Hmain.
  destruct (main_cases h)
    as [(t0 & exe & port & cfg & Hres & Hparse & Hm & Hex & Hsp)
       | [(t0 & exe & _ & Hm & _) | (_ & _ & Hm)]];
    rewrite Hm in Hmain; try discriminate.
  eexists _, _, _, _. repeat split; eauto. congruence.
Qed.

Lemma spawn_calls_app (t1 t2 : list event) :
  spawn_calls (t1 ++ t2) = spawn_calls t1 ++ spawn_calls t2.
Proof. apply omap_app. Qed.

(** The handlers only signal the child or report an error. *)
Lemma event_loop_no_spawn (evs : list Webssh.async_event) :
  spawn_calls (Webssh.event_loop evs).1 = [].
Proof.
  induction evs as [| ev evs IH]; [reflexivity |].
  cbn [Webssh.event_loop].
  destruct ev as [s | msg | code]; [| reflexivity | reflexivity].
  rewrite dispatch_signal, bind_ret. cbn [fst].
  by rewrite spawn_calls_app, IH.
Qed.

(** Any child spawned in a run was started by the script itself, after
    its interpreter was seen on disk. *)
Lemma run_spawn_calls (h : host) (evs : list Webssh.async_event)
    (call : spawn_call) :
  call ∈ spawn_calls (Webssh.run h evs).1 ->
  existsSync h (spawn_exe call) = true
  /\ exists probes, Webssh.resolve_python h = (probes, Ret (spawn_exe call)).
Proof.
  destruct (main_cases h)
    as [(t0 & exe & port & cfg & Hres & Hparse & Hm & Hex & Hsp)
       | [(t0 & exe & Hres & Hm & Hsp) | (_ & _ & Hm)]].
  - rewrite (run_running h _ evs Hm). cbn [fst].
    rewrite !spawn_calls_app, Hsp, event_loop_no_spawn.
    cbn. intros Hin. apply list_elem_of_singleton in Hin as ->.
    split; [exact Hex | by exists t0].
  - rewrite (run_exited h _ _ evs Hm). cbn [fst].
    rewrite spawn_calls_app, Hsp. cbn. by intros ?%elem_of_nil.
  - rewrite (run_exited h _ _ evs Hm). cbn [fst].
    destruct (existsSync h (Webssh.posix_python h)) eqn:Hp;
      [| destruct (existsSync h (Webssh.windows_python h)) eqn:Hw].
    + rewrite (resolve_python_posix h Hp). cbn. by intros ?%elem_of_nil.
    + rewrite (resolve_python_windows h Hp Hw). cbn.
      by intros ?%elem_of_nil.
    + rewrite (resolve_python_missing h Hp Hw). cbn.
      by intros ?%elem_of_nil.
Qed.

(** ** Claims about interpreter resolution and supervision *)

(** C2: the launcher looks for [.venv/bin/python] first and for
    [.venv/Scripts/python.exe] only when the first is missing; when
    neither file exists, whatever the arguments and later events, it
    prints the two error lines that point at [npm run postinstall] and
    exits with code 1, and no child is ever spawned.  Any child that a run
    does spawn uses the resolved interpreter, which was seen on disk. *)
Theorem C2_interpreter_resolution (h : host)
    (evs : list Webssh.async_event) :
  (existsSync h (Webssh.posix_python h) = true ->
   Webssh.resolve_python h
   = ([ExistsSync (Webssh.posix_python h)], Ret (Webssh.posix_python h)))
  /\ (existsSync h (Webssh.posix_python h) = false ->
      existsSync h (Webssh.windows_python h) = true ->
      Webssh.resolve_python h
      = ([ExistsSync (Webssh.posix_python h);
          ExistsSync (Webssh.windows_python h)],
         Ret (Webssh.windows_python h)))
  /\ (existsSync h (Webssh.posix_python h) = false ->
      existsSync h (Webssh.windows_python h) = false ->
      Webssh.run h evs
      = ([ExistsSync (Webssh.posix_python h);
          ExistsSync (Webssh.windows_python h);
          ConsoleError "Error: Python virtual environment not found.";
          ConsoleError "Please run: npm run postinstall"],
         Exit 1)
      /\ spawn_calls (Webssh.run h evs).1 = [])
  /\ (forall call,
        call ∈ spawn_calls (Webssh.run h evs).1 ->
        existsSync h (spawn_exe call) = true
        /\ exists probes,
            Webssh.resolve_python h = (probes, Ret (spawn_exe call))).
Proof.
  split; [apply resolve_python_posix |].
  split; [apply resolve_python_windows |].
  split; [| apply run_spawn_calls].
  intros Hp Hw.
  pose proof (main_missing h _ 1 (resolve_python_missing h Hp Hw)) as Hm.
  by rewrite (run_exited h _ _ evs Hm).
Qed.

(** The scenario of the specification: [-p 9000 -c /tmp/cfg.json] on a
    host without a virtual environment, and a provisioned host. *)
Lemma C2_interpreter_resolution_witness :
  Webssh.resolve_python (Sample.launch_host ∅ [])
  = ([ExistsSync "/opt/webssh/python/.venv/bin/python"],
     Ret "/opt/webssh/python/.venv/bin/python")
  /\ Webssh.run
       (Sample.linux_host [] ∅ ["-p"; "9000"; "-c"; "/tmp/cfg.json"]
          (fun _ => Sample.not_found) (fun _ => ExecOk))
       [Webssh.Signal Webssh.SIGINT]
     = ([ExistsSync "/opt/webssh/python/.venv/bin/python";
         ExistsSync "/opt/webssh/python/.venv/Scripts/python.exe";
         ConsoleError "Error: Python virtual environment not found.";
         ConsoleError "Please run: npm run postinstall"],
        Exit 1).
Proof.
  split.
  - apply (C2_interpreter_resolution (Sample.launch_host ∅ []) []).
    reflexivity.
  - apply (C2_interpreter_resolution
             (Sample.linux_host [] ∅ ["-p"; "9000"; "-c"; "/tmp/cfg.json"]
                (fun _ => Sample.not_found) (fun _ => ExecOk))
             [Webssh.Signal Webssh.SIGINT]); reflexivity.
Defined.

(** C4 (as amended): once the child is running, the handler of each
    SIGINT or SIGTERM does exactly one thing, [proc.kill] with the name
    of the signal received; a sequence of signals yields the same
    sequence of kills, one per signal and in order, and nothing else.
    When the child then closes, the launcher exits with the child's exit
    code if ['close'] carries one, and with 0 if it carries [null], as it
    does when the child was ended by a signal. *)
Theorem C4_signal_forwarding (h : host) (t : list event)
    (sigs : list Webssh.signal) (code : option Z)
    (rest : list Webssh.async_event) :
  Webssh.main h = (t, Ret tt) ->
  (forall s,
      Webssh.dispatch (Webssh.Signal s)
      = ([Kill (Webssh.signal_name s)], Ret tt))
  /\ Webssh.run h (Webssh.Signal <$> sigs)
     = (t ++ ((fun s => Kill (Webssh.signal_name s)) <$> sigs), Ret tt)
  /\ Webssh.run h
       ((Webssh.Signal <$> sigs) ++ Webssh.ChildClose code :: rest)
     = (t ++ ((fun s => Kill (Webssh.signal_name s)) <$> sigs),
        Exit (match code with Some c => c | None => 0 end)).
Proof.
  intros Hmain. split; [apply dispatch_signal |]. split.
  - rewrite (run_running h t _ Hmain).
    rewrite <- (app_nil_r (Webssh.Signal <$> sigs)), event_loop_signals.
    cbn. by rewrite !app_nil_r.
  - rewrite (run_running h t _ Hmain), event_loop_signals.
    rewrite event_loop_close. cbn [fst snd]. rewrite app_nil_r.
    destruct code as [c |]; [by rewrite or_zero_some | reflexivity].
Qed.

Lemma C4_signal_forwarding_witness :
  Webssh.run (Sample.launch_host ∅ ["-p"; "9000"])
    [Webssh.Signal Webssh.SIGINT; Webssh.Signal Webssh.SIGTERM;
     Webssh.Signal Webssh.SIGINT; Webssh.ChildClose (Some 130)]
  = ((Webssh.main (Sample.launch_host ∅ ["-p"; "9000"])).1
       ++ [Kill "SIGINT"; Kill "SIGTERM"; Kill "SIGINT"],
     Exit 130)
  /\ Webssh.run (Sample.launch_host ∅ ["-p"; "9000"])
       [Webssh.Signal Webssh.SIGINT; Webssh.ChildClose None]
     = ((Webssh.main (Sample.launch_host ∅ ["-p"; "9000"])).1
          ++ [Kill "SIGINT"],
        Exit 0).
Proof.
  split.
  - apply (C4_signal_forwarding (Sample.launch_host ∅ ["-p"; "9000"])
             (Webssh.main (Sample.launch_host ∅ ["-p"; "9000"])).1
             [Webssh.SIGINT; Webssh.SIGTERM; Webssh.SIGINT] (Some 130) []).
    reflexivity.
  - apply (C4_signal_forwarding (Sample.launch_host ∅ ["-p"; "9000"])
             (Webssh.main (Sample.launch_host ∅ ["-p"; "9000"])).1
             [Webssh.SIGINT] None []).
    reflexivity.
Defined.

(** C4 as stated fails: the launcher forwards SIGINT, the signal ends the
    child, ['close'] reports the exit code [null], and the launcher exits
    with code 0, which is not the child's exit code: the child has
    none. *)
Lemma C4_counterexample :
  Webssh.run (Sample.launch_host ∅ [])
    [Webssh.Signal Webssh.SIGINT; Webssh.ChildClose None]
  = ((Webssh.main (Sample.launch_host ∅ [])).1 ++ [Kill "SIGINT"], Exit 0)
  /\ ~ (forall (child_code : option Z) (launcher_code : Z),
          (Webssh.run (Sample.launch_host ∅ [])
             [Webssh.Signal Webssh.SIGINT; Webssh.ChildClose child_code]).2
          = Exit launcher_code ->
          child_code = Some launcher_code).
Proof.
  split; [reflexivity |].
  intros Hclaim. by specialize (Hclaim None 0 eq_refl).
Qed.

(** C5: when the child closes with an exit code, the launcher exits with
    that very code, whatever signals were forwarded before; when the
    child reports ['error'] (it could not be spawned), the launcher prints
    [Failed to start WebSSH:] with the message and exits with code 1.
    Events after the one that ends the launcher are never handled. *)
Theorem C5_exit_code_propagation (h : host) (t : list event)
    (sigs : list Webssh.signal) (code : Z) (message : string)
    (rest : list Webssh.async_event) :
  Webssh.main h = (t, Ret tt) ->
  Webssh.run h
    ((Webssh.Signal <$> sigs) ++ Webssh.ChildClose (Some code) :: rest)
  = (t ++ ((fun s => Kill (Webssh.signal_name s)) <$> sigs), Exit code)
  /\ Webssh.run h
       ((Webssh.Signal <$> sigs) ++ Webssh.ChildError message :: rest)
     = (t ++ ((fun s => Kill (Webssh.signal_name s)) <$> sigs)
          ++ [ConsoleError ("Failed to start WebSSH: " +:+ message)],
        Exit 1).
Proof.
  intros Hmain. split.
  - rewrite (run_running h t _ Hmain), event_loop_signals.
    rewrite event_loop_close, or_zero_some. cbn [fst snd].
    by rewrite app_nil_r.
  - rewrite (run_running h t _ Hmain), event_loop_signals.
    by rewrite event_loop_error.
Qed.

Lemma C5_exit_code_propagation_witness :
  Webssh.run (Sample.launch_host ∅ []) [Webssh.ChildClose (Some 3)]
  = ((Webssh.main (Sample.launch_host ∅ [])).1, Exit 3)
  /\ Webssh.run (Sample.launch_host ∅ [])
       [Webssh.ChildError "spawn EACCES"]
     = ((Webssh.main (Sample.launch_host ∅ [])).1
          ++ [ConsoleError "Failed to start WebSSH: spawn EACCES"],
        Exit 1).
Proof.
  destruct (C5_exit_code_propagation (Sample.launch_host ∅ [])
              (Webssh.main (Sample.launch_host ∅ [])).1
              [] 3 "spawn EACCES" [] eq_refl) as [Hclose Herror].
  cbn [fmap list_fmap app] in Hclose, Herror.
  rewrite app_nil_r in Hclose. by split.
Defined.

(** C10: a ['close'] event whose exit code is [null] makes the launcher
    exit with code 0, because [code || 0] is 0; the run is the same as
    when the child exits with code 0. *)
Theorem C10_null_exit_code (h : host) (t : list event)
    (sigs : list Webssh.signal) (rest : list Webssh.async_event) :
  Webssh.main h = (t, Ret tt) ->
  Webssh.or_zero None = 0
  /\ Webssh.run h ((Webssh.Signal <$> sigs) ++ Webssh.ChildClose None :: rest)
     = (t ++ ((fun s => Kill (Webssh.signal_name s)) <$> sigs), Exit 0)
  /\ Webssh.run h ((Webssh.Signal <$> sigs) ++ Webssh.ChildClose None :: rest)
     = Webssh.run h
         ((Webssh.Signal <$> sigs) ++ Webssh.ChildClose (Some 0) :: rest).
Proof.
  intros Hmain. split; [reflexivity |].
  rewrite !(run_running h t _ Hmain), !event_loop_signals.
  rewrite !event_loop_close. cbn [fst snd Webssh.or_zero Z.eqb].
  by rewrite app_nil_r.
Qed.

Lemma C10_null_exit_code_witness :
  Webssh.run (Sample.launch_host ∅ [])
    [Webssh.Signal Webssh.SIGTERM; Webssh.ChildClose None]
  = ((Webssh.main (Sample.launch_host ∅ [])).1 ++ [Kill "SIGTERM"], Exit 0).
Proof.
  apply (C10_null_exit_code (Sample.launch_host ∅ [])
           (Webssh.main (Sample.launch_host ∅ [])).1
           [Webssh.SIGTERM] []).
  reflexivity.
Defined.

(** ** The environment of the child *)

Lemma launch_spawn_calls (h : host) (exe : string) (port : JS.number)
    (cfg : JS.value) :
  spawn_calls (Webssh.launch h exe port cfg).1
  = [{| spawn_exe := exe;
        spawn_args := [Webssh.mainPy h];
        spawn_cwd := Webssh.pythonDir h;
        spawn_env := Webssh.child_env h port cfg;
        spawn_stdio := "inherit" |}].
Proof. reflexivity. Qed.

Lemma child_env_port (h : host) (port : JS.number) (cfg : JS.value) :
  Webssh.child_env h port cfg !! "WEBSSH_PORT"
  = if JS.strict_ne port 8765 then Some (JS.toString port)
    else process_env h !! "WEBSSH_PORT".
Proof.
  unfold Webssh.child_env.
  destruct (JS.truthy cfg), (JS.strict_ne port 8765);
    by simplify_map_eq.
Qed.

Lemma child_env_config (h : host) (port : JS.number) (cfg : JS.value) :
  Webssh.child_env h port cfg !! "WEBSSH_CONFIG"
  = if JS.truthy cfg then Some (JS.value_to_string cfg)
    else process_env h !! "WEBSSH_CONFIG".
Proof.
  unfold Webssh.child_env.
  destruct (JS.truthy cfg), (JS.strict_ne port 8765);
    by simplify_map_eq.
Qed.

Lemma child_env_other (h : host) (port : JS.number) (cfg : JS.value)
    (k : string) :
  k ≠ "WEBSSH_PORT" -> k ≠ "WEBSSH_CONFIG" ->
  Webssh.child_env h port cfg !! k = process_env h !! k.
Proof.
  intros Hp Hc. unfold Webssh.child_env.
  destruct (JS.truthy cfg), (JS.strict_ne port 8765);
    by simplify_map_eq.
Qed.

Lemma strict_ne_iff (port : JS.number) (k : Z) :
  JS.strict_ne port k = true <-> port ≠ JS.Fin k.
Proof.
  destruct port as [| z | neg]; simpl; [done | | done].
  destruct (Z.eqb_spec z k); simpl; split; congruence.
Qed.

(** Integers of magnitude below [2^53] print as their decimal digits. *)
Lemma toString_safe (n : Z) :
  - 2 ^ 53 < n < 2 ^ 53 -> JS.toString (JS.Fin n) = pretty n.
Proof.
  intros Hn. unfold JS.toString.
  destruct (Z.eqb_spec n 0) as [-> | Hz]; [reflexivity |].
  unfold JS.pos_to_string.
  destruct (Z.ltb_spec n 0).
  - destruct (Z.ltb_spec (- n) (2 ^ 53)); [| lia].
    destruct n; try lia. reflexivity.
  - destruct (Z.ltb_spec n (2 ^ 53)); [| lia]. reflexivity.
Qed.

Lemma truthy_iff (v : JS.value) :
  JS.truthy v = true <-> exists p, v = JS.Str p /\ p ≠ "".
Proof.
  destruct v as [| | s]; simpl.
  - split; [done | by intros (p & ? & _)].
  - split; [done | by intros (p & ? & _)].
  - destruct (String.eqb_spec s ""); simpl; split.
    + done.
    + intros (p & [= <-] & Hne). done.
    + intros _. by exists s.
    + done.
Qed.

(** A configuration path held after the loop is the argument that
    followed a [-c] or [--config]. *)
Lemma parse_args_config_provenance (args : list string) :
  forall port cfg port' p,
    Webssh.parse_args args port cfg = ([], Ret (port', JS.Str p)) ->
    cfg = JS.Str p
    \/ exists pre flag post,
        args = pre ++ flag :: p :: post
        /\ Webssh.is_config_flag flag = true.
Proof.
  induction args as [| a | a b l IHl IHbl] using args_ind;
    intros port cfg port' p.
  - simpl. intros [= _ ->]. by left.
  - simpl. destruct (Webssh.is_port_flag a); [intros [= _ ->]; by left |].
    destruct (Webssh.is_config_flag a); [intros [=] |].
    destruct (Webssh.is_help_flag a); [intros [=] | intros [= _ ->]; by left].
  - cbn [Webssh.parse_args].
    destruct (Webssh.is_port_flag a) eqn:Hport.
    { intros [Hc | (pre & flag & post & -> & Hf)]%IHl; [by left | right].
      by exists (a :: b :: pre), flag, post. }
    destruct (Webssh.is_config_flag a) eqn:Hconfig.
    { intros [[= ->] | (pre & flag & post & -> & Hf)]%IHl; right.
      - by exists [], a, l.
      - by exists (a :: b :: pre), flag, post. }
    destruct (Webssh.is_help_flag a); [intros [=] |].
    intros [Hc | (pre & flag & post & Hargs & Hf)]%IHbl; [by left | right].
    exists (a :: pre), flag, post. by rewrite Hargs.
Qed.

(** C1 (as amended): when the script reaches [spawn], the child gets the
    launcher's own environment in which [WEBSSH_PORT] is overwritten with
    [port.toString()] exactly when the parsed port [!== 8765], and
    [WEBSSH_CONFIG] is overwritten with the configuration path exactly
    when [-c]/[--config] supplied a non-empty one; a variable that is not
    overwritten keeps its inherited value or absence, and every other
    variable is inherited unchanged.  The string of an integer port of
    magnitude below [2^53] is its decimal numeral. *)
Theorem C1_child_environment (h : host) (t : list event) :
  Webssh.main h = (t, Ret tt) ->
  exists call port configPath,
    spawn_calls t = [call]
    /\ Webssh.parse_args (drop 2 (argv h)) (JS.Fin 8765) JS.Null
       = ([], Ret (port, configPath))
    /\ spawn_env call !! "WEBSSH_PORT"
       = (if JS.strict_ne port 8765 then Some (JS.toString port)
          else process_env h !! "WEBSSH_PORT")
    /\ spawn_env call !! "WEBSSH_CONFIG"
       = (if JS.truthy configPath
          then Some (JS.value_to_string configPath)
          else process_env h !! "WEBSSH_CONFIG")
    /\ (forall k, k ≠ "WEBSSH_PORT" -> k ≠ "WEBSSH_CONFIG" ->
        spawn_env call !! k = process_env h !! k)
    /\ (JS.strict_ne port 8765 = true <-> port ≠ JS.Fin 8765)
    /\ (forall n, port = JS.Fin n -> - 2 ^ 53 < n < 2 ^ 53 ->
        JS.toString port = pretty n)
    /\ (JS.truthy configPath = true <->
        exists p, configPath = JS.Str p /\ p ≠ "")
    /\ (forall p, configPath = JS.Str p ->
        JS.value_to_string configPath = p
        /\ exists pre flag post,
            drop 2 (argv h) = pre ++ flag :: p :: post
            /\ Webssh.is_config_flag flag = true).
Proof.
  intros (t0 & exe & port & cfg & Hres & Hparse & -> & _ & Hsp)%main_running.
  eexists _, port, cfg.
  split; [by rewrite spawn_calls_app, Hsp, launch_spawn_calls |].
  split; [exact Hparse |]. cbn [spawn_env].
  split; [apply child_env_port |].
  split; [apply child_env_config |].
  split; [apply child_env_other |].
  split; [apply strict_ne_iff |].
  split; [intros n -> Hn; by apply toString_safe |].
  split; [apply truthy_iff |].
  intros p ->. split; [reflexivity |].
  by destruct (parse_args_config_provenance _ _ _ _ _ Hparse)
    as [[=] | Hprov].
Qed.

Lemma C1_child_environment_witness :
  exists call,
    spawn_calls
      (Webssh.main
         (Sample.launch_host {["HOME" := "/root"]}
            ["--port"; "9000"; "-c"; "/tmp/cfg.json"])).1 = [call]
    /\ spawn_env call !! "WEBSSH_PORT" = Some "9000"
    /\ spawn_env call !! "WEBSSH_CONFIG" = Some "/tmp/cfg.json"
    /\ spawn_env call !! "HOME" = Some "/root".
Proof.
  destruct (C1_child_environment
              (Sample.launch_host {["HOME" := "/root"]}
                 ["--port"; "9000"; "-c"; "/tmp/cfg.json"])
              _ eq_refl)
    as (call & port & cfg & Hcall & Hparse & Hport & Hcfg & Hother & _).
  injection Hparse as <- <-.
  exists call. split; [exact Hcall |].
  split; [exact Hport |]. split; [exact Hcfg |].
  by rewrite Hother.
Defined.

(** C1 as stated fails: with [WEBSSH_PORT=9000] already in the launcher's
    environment and no arguments, the parsed port is the default 8765 and
    yet the child's environment contains [WEBSSH_PORT]. *)
Lemma C1_counterexample :
  exists t call port configPath,
    Webssh.main Sample.inherited_port_host = (t, Ret tt)
    /\ spawn_calls t = [call]
    /\ Webssh.parse_args (drop 2 (argv Sample.inherited_port_host))
         (JS.Fin 8765) JS.Null
       = ([], Ret (port, configPath))
    /\ port = JS.Fin 8765
    /\ spawn_env call !! "WEBSSH_PORT" = Some "9000"
    /\ ~ (is_Some (spawn_env call !! "WEBSSH_PORT") <-> port ≠ JS.Fin 8765).
Proof.
  eexists _, _, _, _. split; [reflexivity |]. split; [reflexivity |].
  split; [reflexivity |]. split; [reflexivity |]. split; [reflexivity |].
  intros [Himp _]. by apply Himp.
Qed.

(** A port too large for a double to hold exactly is exported in the
    form [toString] gives it, which is not its decimal numeral. *)
Example huge_port_exported :
  exists t call,
    Webssh.main (Sample.launch_host ∅ ["-p"; "1000000000000000000000"])
    = (t, Ret tt)
    /\ spawn_calls t = [call]
    /\ spawn_env call !! "WEBSSH_PORT" = Some "1e+21".
Proof. eexists _, _. repeat split. Qed.

(** An empty path given to [-c] is not exported either. *)
Example empty_config_not_exported :
  exists t call,
    Webssh.main (Sample.launch_host ∅ ["-c"; ""]) = (t, Ret tt)
    /\ spawn_calls t = [call]
    /\ spawn_env call !! "WEBSSH_CONFIG" = None.
Proof. eexists _, _. repeat split. Qed.

(** ** The help flag *)

Lemma help_flag_takes_no_value (a : string) :
  Webssh.is_help_flag a = true ->
  Webssh.is_port_flag a = false /\ Webssh.is_config_flag a = false.
Proof.
  unfold Webssh.is_help_flag, Webssh.is_port_flag, Webssh.is_config_flag.
  destruct (String.eqb_spec a "-h") as [-> | _]; [done |].
  destruct (String.eqb_spec a "--help") as [-> | _]; done.
Qed.

Lemma parse_args_help_first (a : string) (rest : list string)
    (port : JS.number) (cfg : JS.value) :
  Webssh.is_help_flag a = true ->
  Webssh.parse_args (a :: rest) port cfg = ([ConsoleLog Webssh.usage], Exit 0).
Proof.
  intros Hh. destruct (help_flag_takes_no_value a Hh) as [Hp Hc].
  destruct rest; cbn [Webssh.parse_args]; by rewrite Hp, Hc, Hh.
Qed.

(** A help flag that stands first, or right after an argument that is not
    an option taking a value, is always reached (unless an earlier one
    was). *)
Lemma parse_args_help (args : list string) :
  forall port cfg k a,
    args !! k = Some a ->
    Webssh.is_help_flag a = true ->
    (forall j b, k = S j -> args !! j = Some b ->
                 Webssh.is_port_flag b = false
                 /\ Webssh.is_config_flag b = false) ->
    Webssh.parse_args args port cfg = ([ConsoleLog Webssh.usage], Exit 0).
Proof.
  induction args as [| a0 | a0 b l IHl IHbl] using args_ind;
    intros port cfg k a Hk Hh Hprev.
  - done.
  - destruct k as [| k]; [| done]. injection Hk as ->.
    by apply parse_args_help_first.
  - destruct k as [| [| k]].
    + injection Hk as ->. by apply parse_args_help_first.
    + injection Hk as ->.
      destruct (Hprev 0%nat a0 eq_refl eq_refl) as [Hp Hc].
      cbn [Webssh.parse_args]. rewrite Hp, Hc.
      destruct (Webssh.is_help_flag a0); [done |].
      by apply parse_args_help_first.
    + cbn [Webssh.parse_args].
      assert (Hl : forall port' cfg',
                 Webssh.parse_args l port' cfg'
                 = ([ConsoleLog Webssh.usage], Exit 0)).
      { intros port' cfg'. apply (IHl port' cfg' k a Hk Hh).
        intros j b' -> Hj. by apply (Hprev (S (S j)) b'). }
      destruct (Webssh.is_port_flag a0); [apply Hl |].
      destruct (Webssh.is_config_flag a0); [apply Hl |].
      destruct (Webssh.is_help_flag a0); [done |].
      apply (IHbl port cfg (S k) a Hk Hh).
      intros j b' [= <-] Hj. by apply (Hprev (S k) b').
Qed.

(** C3 (as amended): when the interpreter of the virtual environment
    exists and [-h] or [--help] stands first among the arguments or right
    after an argument other than [-p], [--port], [-c] and [--config], the
    launcher only probes for the interpreter, prints the usage text and
    exits with code 0: no version probe, no shell command and no child
    process, whatever events follow. *)
Theorem C3_help (h : host) (evs : list Webssh.async_event) (k : nat)
    (a : string) :
  existsSync h (Webssh.posix_python h) = true
  \/ existsSync h (Webssh.windows_python h) = true ->
  drop 2 (argv h) !! k = Some a ->
  Webssh.is_help_flag a = true ->
  (forall j b, k = S j -> drop 2 (argv h) !! j = Some b ->
               Webssh.is_port_flag b = false
               /\ Webssh.is_config_flag b = false) ->
  exists probes exe,
    Webssh.resolve_python h = (probes, Ret exe)
    /\ Webssh.run h evs = (probes ++ [ConsoleLog Webssh.usage], Exit 0)
    /\ spawn_calls (Webssh.run h evs).1 = []
    /\ exec_calls (Webssh.run h evs).1 = []
    /\ probe_calls (Webssh.run h evs).1 = [].
Proof.
  intros Hex Hk Hh Hprev.
  destruct (resolve_python_found h Hex)
    as (probes & exe & Hres & _ & Hsp & Hexec & Hprobe).
  pose proof (parse_args_help _ (JS.Fin 8765) JS.Null k a Hk Hh Hprev)
    as Hparse.
  pose proof (main_help h _ _ Hres Hparse) as Hmain.
  exists probes, exe. rewrite (run_exited h _ _ evs Hmain). cbn [fst].
  unfold spawn_calls, exec_calls, probe_calls in *.
  rewrite !omap_app, Hsp, Hexec, Hprobe. done.
Qed.

Lemma C3_help_witness :
  Webssh.run (Sample.launch_host ∅ ["-p"; "9000"; "--help"; "-c"])
    [Webssh.ChildClose (Some 7)]
  = ([ExistsSync "/opt/webssh/python/.venv/bin/python";
      ConsoleLog Webssh.usage],
     Exit 0).
Proof.
  destruct (C3_help (Sample.launch_host ∅ ["-p"; "9000"; "--help"; "-c"])
              [Webssh.ChildClose (Some 7)] 2 "--help")
    as (probes & exe & Hres & Hrun & _).
  - left. reflexivity.
  - reflexivity.
  - reflexivity.
  - intros j b [= <-] [= <-]. split; reflexivity.
  - injection Hres as <- <-. exact Hrun.
Defined.

(** C3 as stated fails: in [webssh -c --help] the argument vector
    contains [--help], but it is read as the value of [-c]; no usage text
    is printed, the backend is spawned and the launcher keeps running. *)
Lemma C3_counterexample :
  "--help" ∈ drop 2 (argv Sample.help_as_value_host)
  /\ (exists call,
        Webssh.run Sample.help_as_value_host []
        = ([ExistsSync "/opt/webssh/python/.venv/bin/python";
            ConsoleLog "Starting WebSSH on port 8765...";
            ConsoleLog "Open http://localhost:8765/ in your browser";
            Spawn call],
           Ret tt)
        /\ spawn_exe call = "/opt/webssh/python/.venv/bin/python"
        /\ spawn_env call !! "WEBSSH_CONFIG" = Some "--help")
  /\ (Webssh.run Sample.help_as_value_host []).2 ≠ Exit 0
  /\ spawn_calls (Webssh.run Sample.help_as_value_host []).1 ≠ [].
Proof.
  split; [cbn; apply list_elem_of_further, list_elem_of_here |].
  split; [eexists; split; [reflexivity |]; split; reflexivity |].
  split; discriminate.
Qed.

(** Without a virtual environment the help flag is not reached either. *)
Example help_without_venv :
  Webssh.run
    (Sample.linux_host [] ∅ ["--help"] (fun _ => Sample.not_found)
       (fun _ => ExecOk)) []
  = ([ExistsSync "/opt/webssh/python/.venv/bin/python";
      ExistsSync "/opt/webssh/python/.venv/Scripts/python.exe";
      ConsoleError "Error: Python virtual environment not found.";
      ConsoleError "Please run: npm run postinstall"],
     Exit 1).
Proof. reflexivity. Qed.

(** ** A port that does not parse *)

Lemma digits_prefix_some (s : string) (x : Z) :
  exists y, JS.digits_prefix s (Some x) = Some y.
Proof.
  revert x. induction s as [| c s IH]; intros x; simpl; [by exists x |].
  destruct (JS.is_digit c); [apply IH | by exists x].
Qed.

Lemma to_number_not_NaN (negative : bool) (n : Z) :
  JS.to_number negative n ≠ JS.NaN.
Proof. unfold JS.to_number. by destruct (JS.round_to_double n). Qed.

(** [parseInt] yields [NaN] exactly when, after leading white space and
    an optional sign, the string does not start with a decimal digit. *)
Lemma parseInt_NaN_iff (s : string) :
  JS.parseInt_string s = JS.NaN
  <-> match (JS.strip_sign (JS.trimStart s)).2 with
      | String c _ => JS.is_digit c = false
      | EmptyString => True
      end.
Proof.
  unfold JS.parseInt_string.
  destruct (JS.strip_sign (JS.trimStart s)) as [negative r]. cbn [snd].
  destruct r as [| c r]; [done |]. simpl.
  destruct (JS.is_digit c); [| done].
  destruct (digits_prefix_some r (10 * 0 + JS.digit_val c)) as [y ->].
  split; [| done]. by intros ?%to_number_not_NaN.
Qed.

(** A list consumed in whole iterations leaves the rest to the loop. *)
Lemma parse_args_whole (pre : list string) :
  Webssh.whole_options pre ->
  forall rest port cfg,
  exists port' cfg',
    Webssh.parse_args (pre ++ rest) port cfg
    = Webssh.parse_args rest port' cfg'.
Proof.
  induction 1 as [| a v l Hp _ IH | a v l Hp Hc _ IH | a l Hp Hc Hh _ IH];
    intros rest port cfg.
  - by exists port, cfg.
  - cbn [app Webssh.parse_args]. rewrite Hp. apply IH.
  - cbn [app Webssh.parse_args]. rewrite Hp, Hc. apply IH.
  - destruct (IH rest port cfg) as (port' & cfg' & Heq).
    exists port', cfg'. rewrite <- Heq.
    cbn [app]. destruct (l ++ rest); cbn [Webssh.parse_args];
      by rewrite Hp, Hc, Hh.
Qed.

(** Without a port option or a help flag among them, the remaining
    arguments leave the port as it is. *)
Lemma parse_args_keeps_port (post : list string) :
  Forall (fun a => Webssh.is_port_flag a = false
                   /\ Webssh.is_help_flag a = false) post ->
  forall port cfg,
  exists cfg', Webssh.parse_args post port cfg = ([], Ret (port, cfg')).
Proof.
  induction post as [| a | a b l IHl IHbl] using args_ind;
    intros Hall port cfg.
  - by exists cfg.
  - apply Forall_cons in Hall as [[Hp Hh] _]. simpl. rewrite Hp, Hh.
    destruct (Webssh.is_config_flag a); by eexists.
  - apply Forall_cons in Hall as [[Hp Hh] Hbl].
    pose proof Hbl as [_ Hl]%Forall_cons.
    cbn [Webssh.parse_args]. rewrite Hp, Hh.
    destruct (Webssh.is_config_flag a); [by apply IHl | by apply IHbl].
Qed.

(** C9 (as amended): when the interpreter exists, the arguments before a
    [-p]/[--port] are consumed in whole iterations without a help flag,
    the argument after it does not parse as an integer (or is missing),
    and no further port option or help flag follows, then the parsed port
    is [NaN], which [!== 8765], the child is spawned by the script and
    its environment has [WEBSSH_PORT] set to the string [NaN].  The loop
    itself never rejects an argument vector: it ends with a configuration
    or with the usage text and exit code 0. *)
Theorem C9_unparsable_port (h : host) (pre : list string) (flag : string)
    (rest : list string) :
  existsSync h (Webssh.posix_python h) = true
  \/ existsSync h (Webssh.windows_python h) = true ->
  drop 2 (argv h) = pre ++ flag :: rest ->
  Webssh.whole_options pre ->
  Webssh.is_port_flag flag = true ->
  JS.parseInt (Webssh.next_arg rest) = JS.NaN ->
  Forall (fun a => Webssh.is_port_flag a = false
                   /\ Webssh.is_help_flag a = false) (tail rest) ->
  (exists t call cfg,
      Webssh.main h = (t, Ret tt)
      /\ Webssh.parse_args (drop 2 (argv h)) (JS.Fin 8765) JS.Null
         = ([], Ret (JS.NaN, cfg))
      /\ JS.strict_ne JS.NaN 8765 = true
      /\ spawn_calls t = [call]
      /\ spawn_env call !! "WEBSSH_PORT" = Some "NaN")
  /\ (forall args port cfg,
        (exists port' cfg',
            Webssh.parse_args args port cfg = ([], Ret (port', cfg')))
        \/ Webssh.parse_args args port cfg
           = ([ConsoleLog Webssh.usage], Exit 0)).
Proof.
  intros Hex Hargs Hpre Hflag Hnan Hpost.
  split; [| intros args; apply parse_args_outcome].
  destruct (resolve_python_found h Hex)
    as (probes & exe & Hres & _ & Hsp & _).
  destruct (parse_args_whole pre Hpre (flag :: rest) (JS.Fin 8765) JS.Null)
    as (port0 & cfg0 & Hwhole).
  assert (exists cfg,
             Webssh.parse_args (flag :: rest) port0 cfg0
             = ([], Ret (JS.NaN, cfg))) as [cfg Hrest].
  { destruct rest as [| v post]; cbn [Webssh.parse_args]; rewrite Hflag.
    - cbn [Webssh.next_arg] in Hnan. rewrite Hnan. by exists cfg0.
    - cbn [Webssh.next_arg] in Hnan. rewrite Hnan.
      by apply parse_args_keeps_port. }
  assert (Hparse : Webssh.parse_args (drop 2 (argv h)) (JS.Fin 8765) JS.Null
                   = ([], Ret (JS.NaN, cfg))) by congruence.
  eexists _, _, cfg. split; [exact (main_spawns h _ _ _ _ Hres Hparse) |].
  split; [exact Hparse |]. split; [reflexivity |].
  split; [by rewrite spawn_calls_app, Hsp, launch_spawn_calls |].
  cbn [spawn_env]. by rewrite child_env_port.
Qed.

Lemma C9_unparsable_port_witness :
  exists t call,
    Webssh.main (Sample.launch_host ∅ ["-c"; "-p"; "--port"; "http"; "-c"])
    = (t, Ret tt)
    /\ spawn_calls t = [call]
    /\ spawn_env call !! "WEBSSH_PORT" = Some "NaN".
Proof.
  destruct (C9_unparsable_port
              (Sample.launch_host ∅ ["-c"; "-p"; "--port"; "http"; "-c"])
              ["-c"; "-p"] "--port" ["http"; "-c"])
    as [(t & call & cfg & Hmain & _ & _ & Hcall & Henv) _].
  - left. reflexivity.
  - reflexivity.
  - apply Webssh.whole_config; [reflexivity | reflexivity |].
    apply Webssh.whole_nil.
  - reflexivity.
  - reflexivity.
  - apply Forall_cons. split; [split; reflexivity | apply Forall_nil_2].
  - exists t, call. by repeat split.
Defined.

(** C9 as stated fails: in [webssh -p abc -p 9000] the argument after the
    first [-p] does not parse as an integer, but the second [-p] sets the
    port again and the child gets [WEBSSH_PORT=9000]. *)
Lemma C9_counterexample :
  drop 2 (argv Sample.port_twice_host) = ["-p"; "abc"; "-p"; "9000"]
  /\ JS.parseInt (JS.Str "abc") = JS.NaN
  /\ exists t call,
      Webssh.main Sample.port_twice_host = (t, Ret tt)
      /\ spawn_calls t = [call]
      /\ spawn_env call !! "WEBSSH_PORT" = Some "9000"
      /\ spawn_env call !! "WEBSSH_PORT" ≠ Some "NaN".
Proof.
  split; [reflexivity |]. split; [reflexivity |].
  eexists _, _. split; [reflexivity |]. split; [reflexivity |].
  split; [reflexivity | discriminate].
Qed.

(** ** The provisioner: finding Python *)

Lemma findPython_loop_cons (h : host) (cmd : string) (rest : list string) :
  Postinstall.findPython_loop h (cmd :: rest)
  = if Postinstall.qualifies (spawnSync h cmd ["--version"])
    then ([Postinstall.version_probe cmd], Ret (JS.Str cmd))
    else (Postinstall.version_probe cmd
            :: (Postinstall.findPython_loop h rest).1,
          (Postinstall.findPython_loop h rest).2).
Proof.
  cbn [Postinstall.findPython_loop].
  unfold Postinstall.child_spawnSync, Postinstall.qualifies,
    Postinstall.status_is, Postinstall.stdout_includes,
    Postinstall.version_probe.
  destruct (spawnSync h cmd ["--version"]) as [[c |] [out |]]; cbn.
  - destruct (c =? 0); cbn;
      [destruct (JS.includes out "Python 3"); cbn |];
      by destruct (Postinstall.findPython_loop h rest).
  - destruct (c =? 0); cbn;
      by destruct (Postinstall.findPython_loop h rest).
  - by destruct (Postinstall.findPython_loop h rest).
  - by destruct (Postinstall.findPython_loop h rest).
Qed.

(** The loop returns the first candidate that qualifies and probes no
    candidate after it. *)
Lemma findPython_loop_first (h : host) (pre : list string) (c : string)
    (post : list string) :
  Forall (fun c' => Postinstall.qualifies (spawnSync h c' ["--version"])
                    = false) pre ->
  Postinstall.qualifies (spawnSync h c ["--version"]) = true ->
  Postinstall.findPython_loop h (pre ++ c :: post)
  = (Postinstall.version_probe <$> (pre ++ [c]), Ret (JS.Str c)).
Proof.
  intros Hpre Hc. induction Hpre as [| c' pre Hc' _ IH].
  - cbn [app]. by rewrite findPython_loop_cons, Hc.
  - cbn [app]. by rewrite findPython_loop_cons, Hc', IH.
Qed.

Lemma findPython_loop_none (h : host) (cmds : list string) :
  Forall (fun c' => Postinstall.qualifies (spawnSync h c' ["--version"])
                    = false) cmds ->
  Postinstall.findPython_loop h cmds
  = (Postinstall.version_probe <$> cmds, Ret JS.Null).
Proof.
  induction 1 as [| c' cmds Hc' _ IH]; [reflexivity |].
  by rewrite findPython_loop_cons, Hc', IH.
Qed.

(** Whatever the host, the loop returns [null] or one of the candidates,
    and its trace consists of version probes only. *)
Lemma findPython_loop_result (h : host) (cmds : list string) :
  exists tried,
    (Postinstall.findPython_loop h cmds).1
    = Postinstall.version_probe <$> tried
    /\ ((Postinstall.findPython_loop h cmds).2 = Ret JS.Null
        \/ exists c, c ∈ cmds
                     /\ (Postinstall.findPython_loop h cmds).2
                        = Ret (JS.Str c)).
Proof.
  induction cmds as [| c cmds (tried & Ht & Hr)].
  - exists []. split; [reflexivity | by left].
  - rewrite findPython_loop_cons.
    destruct (Postinstall.qualifies (spawnSync h c ["--version"])).
    + exists [c]. split; [reflexivity |]. right. exists c.
      split; [apply list_elem_of_here | reflexivity].
    + exists (c :: tried). cbn [fst snd]. rewrite Ht.
      split; [reflexivity |].
      destruct Hr as [Hr | (c' & Hin & Hr)]; [by left | right].
      exists c'. split; [by apply list_elem_of_further | exact Hr].
Qed.

Lemma findPython_found_nonempty (h : host) (t0 : list event) (py : string) :
  Postinstall.findPython h = (t0, Ret (JS.Str py)) ->
  JS.truthy (JS.Str py) = true
  /\ exists tried, t0 = Postinstall.version_probe <$> tried.
Proof.
  intros Hfind. unfold Postinstall.findPython in Hfind.
  destruct (findPython_loop_result h Postinstall.pythonCommands)
    as (tried & Ht & Hr).
  rewrite Hfind in Ht, Hr. cbn [fst snd] in Ht, Hr.
  split; [| by exists tried].
  destruct Hr as [[=] | (c & Hin & [= ->])].
  unfold Postinstall.pythonCommands in Hin.
  apply elem_of_cons in Hin as [-> | Hin]; [reflexivity |].
  apply elem_of_cons in Hin as [-> | Hin]; [reflexivity |].
  by apply elem_of_nil in Hin.
Qed.

(** C6: [findPython] tries [python3] and then [python], each with
    [--version], and returns the first one whose probe exits with status
    0 and prints [Python 3]; candidates after it are not probed.  When
    neither qualifies the script prints that Python 3 is required and
    that Python 3.10 or later should be installed, and exits with code 1
    before anything else is run. *)
Theorem C6_runtime_detection (h : host) :
  Postinstall.pythonCommands = ["python3"; "python"]
  /\ (forall pre c post,
        Postinstall.pythonCommands = pre ++ c :: post ->
        Forall (fun c' => Postinstall.qualifies
                            (spawnSync h c' ["--version"]) = false) pre ->
        Postinstall.qualifies (spawnSync h c ["--version"]) = true ->
        Postinstall.findPython h
        = ((fun c' => SpawnSync c' ["--version"]) <$> (pre ++ [c]),
           Ret (JS.Str c)))
  /\ (Forall (fun c' => Postinstall.qualifies
                          (spawnSync h c' ["--version"]) = false)
        Postinstall.pythonCommands ->
      Postinstall.main h
      = ([ConsoleLog "Setting up WebSSH Python environment...";
          SpawnSync "python3" ["--version"];
          SpawnSync "python" ["--version"];
          ConsoleError "Error: Python 3 is required but not found.";
          ConsoleError "Please install Python 3.10 or later."],
         Exit 1)).
Proof.
  split; [reflexivity |]. split.
  - intros pre c post Hcmds Hpre Hc. unfold Postinstall.findPython.
    rewrite Hcmds. by apply findPython_loop_first.
  - intros Hnone. unfold Postinstall.main, Postinstall.findPython.
    by rewrite (findPython_loop_none h _ Hnone).
Qed.

Lemma C6_runtime_detection_witness :
  Postinstall.findPython
    (Sample.install_host Sample.probe_python_only (fun _ => ExecOk))
  = ([SpawnSync "python3" ["--version"]; SpawnSync "python" ["--version"]],
     Ret (JS.Str "python"))
  /\ Postinstall.main
       (Sample.install_host (fun _ => Sample.not_found) (fun _ => ExecOk))
     = ([ConsoleLog "Setting up WebSSH Python environment...";
         SpawnSync "python3" ["--version"];
         SpawnSync "python" ["--version"];
         ConsoleError "Error: Python 3 is required but not found.";
         ConsoleError "Please install Python 3.10 or later."],
        Exit 1).
Proof.
  split.
  - apply (C6_runtime_detection
             (Sample.install_host Sample.probe_python_only
                (fun _ => ExecOk)))
      with (pre := ["python3"]) (c := "python") (post := []).
    + reflexivity.
    + apply Forall_cons. split; [reflexivity | apply Forall_nil_2].
    + reflexivity.
  - apply (C6_runtime_detection
             (Sample.install_host (fun _ => Sample.not_found)
                (fun _ => ExecOk))).
    repeat (apply Forall_cons; split; [reflexivity |]). apply Forall_nil_2.
Defined.

(** ** The provisioner: choosing the installer and running it *)

Lemma hasUv_result (h : host) :
  Postinstall.hasUv h
  = ([SpawnSync "uv" ["--version"]],
     Ret (Postinstall.status_is (spawnSync h "uv" ["--version"]) 0)).
Proof. reflexivity. Qed.

Lemma status_is_zero_iff (r : spawnSyncResult) :
  Postinstall.status_is r 0 = true <-> status r = Some 0.
Proof.
  unfold Postinstall.status_is. destruct (status r) as [c |]; [| done].
  destruct (Z.eqb_spec c 0); split; congruence.
Qed.

(** The two shell commands inside [try]/[catch]: the second runs only
    when the first succeeds, and the handler reports the message of the
    one that failed and exits with code 1. *)
Lemma two_steps (h : host) (c1 c2 cwd label : string) :
  try_catch
    (Postinstall.child_execSync h c1 cwd ;;
     Postinstall.child_execSync h c2 cwd)
    (fun message => console_error [label; message] ;; process_exit 1)
  = match execSync h c1 with
    | ExecFail m =>
        ([ExecSync c1 cwd; ConsoleError (label +:+ " " +:+ m)], Exit 1)
    | ExecOk =>
        match execSync h c2 with
        | ExecFail m =>
            ([ExecSync c1 cwd; ExecSync c2 cwd;
              ConsoleError (label +:+ " " +:+ m)], Exit 1)
        | ExecOk => ([ExecSync c1 cwd; ExecSync c2 cwd], Ret tt)
        end
    end.
Proof.
  unfold Postinstall.child_execSync.
  destruct (execSync h c1); [destruct (execSync h c2) |]; reflexivity.
Qed.

Lemma provision_uv (h : host) (python : JS.value) :
  status (spawnSync h "uv" ["--version"]) = Some 0 ->
  Postinstall.provision h python
  = ([SpawnSync "uv" ["--version"];
      ConsoleLog "Using uv for faster installation..."]
       ++ (try_catch
             (Postinstall.child_execSync h (Postinstall.uv_venv_cmd h)
                (Postinstall.pythonDir h) ;;
              Postinstall.child_execSync h (Postinstall.uv_install_cmd h)
                (Postinstall.pythonDir h))
             (fun message =>
                console_error
                  ["Failed to set up environment with uv:"; message] ;;
                process_exit 1)).1,
     (try_catch
        (Postinstall.child_execSync h (Postinstall.uv_venv_cmd h)
           (Postinstall.pythonDir h) ;;
         Postinstall.child_execSync h (Postinstall.uv_install_cmd h)
           (Postinstall.pythonDir h))
        (fun message =>
           console_error
             ["Failed to set up environment with uv:"; message] ;;
           process_exit 1)).2).
Proof.
  intros Huv%status_is_zero_iff. unfold Postinstall.provision.
  rewrite hasUv_result, bind_ret, Huv.
  unfold console_log, emit. rewrite bind_ret. cbn [fst snd].
  reflexivity.
Qed.

Lemma provision_pip (h : host) (python : JS.value) :
  status (spawnSync h "uv" ["--version"]) ≠ Some 0 ->
  Postinstall.provision h python
  = ([SpawnSync "uv" ["--version"];
      ConsoleLog "Using pip for installation..."]
       ++ (try_catch
             (Postinstall.child_execSync h
                (Postinstall.python_venv_cmd h (JS.value_to_string python))
                (Postinstall.pythonDir h) ;;
              Postinstall.child_execSync h (Postinstall.pip_install_cmd h)
                (Postinstall.pythonDir h))
             (fun message =>
                console_error
                  ["Failed to set up environment with pip:"; message] ;;
                process_exit 1)).1,
     (try_catch
        (Postinstall.child_execSync h
           (Postinstall.python_venv_cmd h (JS.value_to_string python))
           (Postinstall.pythonDir h) ;;
         Postinstall.child_execSync h (Postinstall.pip_install_cmd h)
           (Postinstall.pythonDir h))
        (fun message =>
           console_error
             ["Failed to set up environment with pip:"; message] ;;
           process_exit 1)).2).
Proof.
  intros Huv. unfold Postinstall.provision.
  destruct (Postinstall.status_is (spawnSync h "uv" ["--version"]) 0)
    eqn:Hs; [by apply status_is_zero_iff in Hs |].
  rewrite hasUv_result, bind_ret, Hs.
  unfold console_log, emit. rewrite bind_ret. cbn [fst snd].
  reflexivity.
Qed.

(** The script once Python has been found. *)
Lemma postinstall_main_found (h : host) (t0 : list event) (py : string) :
  Postinstall.findPython h = (t0, Ret (JS.Str py)) ->
  Postinstall.main h
  = (ConsoleLog "Setting up WebSSH Python environment..."
       :: t0 ++ ConsoleLog ("Found " +:+ py)
       :: (Postinstall.provision h (JS.Str py) ;;
           console_log [""] ;;
           console_log ["WebSSH installation complete!"] ;;
           console_log
             ["Run " +:+ dquote +:+ "webssh" +:+ dquote
              +:+ " to start the server."]).1,
     (Postinstall.provision h (JS.Str py) ;;
      console_log [""] ;;
      console_log ["WebSSH installation complete!"] ;;
      console_log
        ["Run " +:+ dquote +:+ "webssh" +:+ dquote
         +:+ " to start the server."]).2).
Proof.
  intros Hfind.
  destruct (findPython_found_nonempty h t0 py Hfind) as [Htruthy _].
  unfold Postinstall.main.
  rewrite console_log_bind, Hfind, bind_ret, Htruthy. cbn [negb fst snd].
  change (mret tt) with (([], Ret tt) : prog unit).
  rewrite bind_ret, console_log_bind. reflexivity.
Qed.

(** The script once Python has been found and the installer chosen: the
    two shell commands [c1] and [c2] of that installer, announced by
    [banner], with failures reported under [label]. *)
Lemma postinstall_main_steps (h : host) (t0 : list event)
    (py banner c1 c2 label : string) :
  Postinstall.findPython h = (t0, Ret (JS.Str py)) ->
  Postinstall.provision h (JS.Str py)
  = ([SpawnSync "uv" ["--version"]; ConsoleLog banner]
       ++ (try_catch
             (Postinstall.child_execSync h c1 (Postinstall.pythonDir h) ;;
              Postinstall.child_execSync h c2 (Postinstall.pythonDir h))
             (fun message =>
                console_error [label; message] ;; process_exit 1)).1,
     (try_catch
        (Postinstall.child_execSync h c1 (Postinstall.pythonDir h) ;;
         Postinstall.child_execSync h c2 (Postinstall.pythonDir h))
        (fun message =>
           console_error [label; message] ;; process_exit 1)).2) ->
  Postinstall.main h
  = match execSync h c1 with
    | ExecFail m =>
        ((ConsoleLog "Setting up WebSSH Python environment..."
            :: t0 ++ [ConsoleLog ("Found " +:+ py);
                      SpawnSync "uv" ["--version"]; ConsoleLog banner])
           ++ [ExecSync c1 (Postinstall.pythonDir h);
               ConsoleError (label +:+ " " +:+ m)],
         Exit 1)
    | ExecOk =>
        match execSync h c2 with
        | ExecFail m =>
            ((ConsoleLog "Setting up WebSSH Python environment..."
                :: t0 ++ [ConsoleLog ("Found " +:+ py);
                          SpawnSync "uv" ["--version"]; ConsoleLog banner;
                          ExecSync c1 (Postinstall.pythonDir h)])
               ++ [ExecSync c2 (Postinstall.pythonDir h);
                   ConsoleError (label +:+ " " +:+ m)],
             Exit 1)
        | ExecOk =>
            (ConsoleLog "Setting up WebSSH Python environment..."
               :: t0 ++ [ConsoleLog ("Found " +:+ py);
                         SpawnSync "uv" ["--version"]; ConsoleLog banner;
                         ExecSync c1 (Postinstall.pythonDir h);
                         ExecSync c2 (Postinstall.pythonDir h);
                         ConsoleLog "";
                         ConsoleLog "WebSSH installation complete!";
                         ConsoleLog
                           ("Run " +:+ dquote +:+ "webssh" +:+ dquote
                            +:+ " to start the server.")],
             Ret tt)
        end
    end.
Proof.
  intros Hfind Hprov.
  rewrite (postinstall_main_found h t0 py Hfind), Hprov, two_steps.
  destruct (execSync h c1) as [| m1]; [destruct (execSync h c2) as [| m2] |];
    cbn [fst snd app]; rewrite <- ?app_assoc; reflexivity.
Qed.

Lemma exec_calls_version_probes (tried : list string) :
  exec_calls (Postinstall.version_probe <$> tried) = [].
Proof. induction tried as [| c tried IH]; [reflexivity | exact IH]. Qed.

Lemma exec_calls_app (t1 t2 : list event) :
  exec_calls (t1 ++ t2) = exec_calls t1 ++ exec_calls t2.
Proof. apply omap_app. Qed.

Lemma probe_calls_app (t1 t2 : list event) :
  probe_calls (t1 ++ t2) = probe_calls t1 ++ probe_calls t2.
Proof. apply omap_app. Qed.

(** The shell commands and the version probes of a provisioning run. *)
Lemma postinstall_main_calls (h : host) (t0 : list event)
    (py banner c1 c2 label : string) :
  Postinstall.findPython h = (t0, Ret (JS.Str py)) ->
  Postinstall.main h
  = match execSync h c1 with
    | ExecFail m =>
        ((ConsoleLog "Setting up WebSSH Python environment..."
            :: t0 ++ [ConsoleLog ("Found " +:+ py);
                      SpawnSync "uv" ["--version"]; ConsoleLog banner])
           ++ [ExecSync c1 (Postinstall.pythonDir h);
               ConsoleError (label +:+ " " +:+ m)],
         Exit 1)
    | ExecOk =>
        match execSync h c2 with
        | ExecFail m =>
            ((ConsoleLog "Setting up WebSSH Python environment..."
                :: t0 ++ [ConsoleLog ("Found " +:+ py);
                          SpawnSync "uv" ["--version"]; ConsoleLog banner;
                          ExecSync c1 (Postinstall.pythonDir h)])
               ++ [ExecSync c2 (Postinstall.pythonDir h);
                   ConsoleError (label +:+ " " +:+ m)],
             Exit 1)
        | ExecOk =>
            (ConsoleLog "Setting up WebSSH Python environment..."
               :: t0 ++ [ConsoleLog ("Found " +:+ py);
                         SpawnSync "uv" ["--version"]; ConsoleLog banner;
                         ExecSync c1 (Postinstall.pythonDir h);
                         ExecSync c2 (Postinstall.pythonDir h);
                         ConsoleLog "";
                         ConsoleLog "WebSSH installation complete!";
                         ConsoleLog
                           ("Run " +:+ dquote +:+ "webssh" +:+ dquote
                            +:+ " to start the server.")],
             Ret tt)
        end
    end ->
  probe_calls (Postinstall.main h).1 = probe_calls t0 ++ ["uv"]
  /\ exec_calls (Postinstall.main h).1
     = c1 :: match execSync h c1 with
             | ExecOk => [c2]
             | ExecFail _ => []
             end.
Proof.
  intros Hfind ->.
  destruct (findPython_found_nonempty h t0 py Hfind) as [_ [tried ->]].
  destruct (execSync h c1) as [| m1]; [destruct (execSync h c2) as [| m2] |];
    cbn [fst]; split;
    rewrite ?app_comm_cons, ?probe_calls_app, ?exec_calls_app;
    cbn; rewrite ?exec_calls_version_probes, ?app_nil_r; reflexivity.
Qed.

(** C7: once Python is found, the installer is chosen by one probe,
    [uv --version]: uv is used exactly when that probe exits with status
    0, and pip otherwise; choosing never throws or exits, and nothing
    else is probed.  With uv the commands are [uv venv] and
    [uv pip install --python] on the environment directory; with pip the
    environment is created by the Python that was found and the packages
    are installed by the pip executable inside the environment,
    [Scripts/pip.exe] when the platform is [win32] and [bin/pip]
    otherwise.  The second command runs only when the first succeeds. *)
Theorem C7_installer_selection (h : host) (t0 : list event) (py : string) :
  Postinstall.findPython h = (t0, Ret (JS.Str py)) ->
  Postinstall.hasUv h
  = ([SpawnSync "uv" ["--version"]],
     Ret (Postinstall.status_is (spawnSync h "uv" ["--version"]) 0))
  /\ (Postinstall.status_is (spawnSync h "uv" ["--version"]) 0 = true
      <-> status (spawnSync h "uv" ["--version"]) = Some 0)
  /\ probe_calls (Postinstall.main h).1 = probe_calls t0 ++ ["uv"]
  /\ (status (spawnSync h "uv" ["--version"]) = Some 0 ->
      exec_calls (Postinstall.main h).1
      = Postinstall.uv_venv_cmd h
          :: match execSync h (Postinstall.uv_venv_cmd h) with
             | ExecOk => [Postinstall.uv_install_cmd h]
             | ExecFail _ => []
             end)
  /\ (status (spawnSync h "uv" ["--version"]) ≠ Some 0 ->
      exec_calls (Postinstall.main h).1
      = Postinstall.python_venv_cmd h py
          :: match execSync h (Postinstall.python_venv_cmd h py) with
             | ExecOk => [Postinstall.pip_install_cmd h]
             | ExecFail _ => []
             end)
  /\ Postinstall.uv_venv_cmd h
     = "uv venv " +:+ dquote +:+ Postinstall.venvDir h +:+ dquote
  /\ Postinstall.uv_install_cmd h
     = "uv pip install --python " +:+ dquote +:+ Postinstall.venvDir h
       +:+ dquote +:+ " fastapi uvicorn websockets"
  /\ Postinstall.python_venv_cmd h py
     = py +:+ " -m venv " +:+ dquote +:+ Postinstall.venvDir h +:+ dquote
  /\ Postinstall.pip_install_cmd h
     = dquote
       +:+ (if String.eqb (platform h) "win32"
            then path_join h [Postinstall.venvDir h; "Scripts"; "pip.exe"]
            else path_join h [Postinstall.venvDir h; "bin"; "pip"])
       +:+ dquote +:+ " install fastapi uvicorn websockets".
Proof.
  intros Hfind.
  split; [apply hasUv_result |]. split; [apply status_is_zero_iff |].
  assert (Hcalls :
    probe_calls (Postinstall.main h).1 = probe_calls t0 ++ ["uv"]
    /\ (status (spawnSync h "uv" ["--version"]) = Some 0 ->
        exec_calls (Postinstall.main h).1
        = Postinstall.uv_venv_cmd h
            :: match execSync h (Postinstall.uv_venv_cmd h) with
               | ExecOk => [Postinstall.uv_install_cmd h]
               | ExecFail _ => []
               end)
    /\ (status (spawnSync h "uv" ["--version"]) ≠ Some 0 ->
        exec_calls (Postinstall.main h).1
        = Postinstall.python_venv_cmd h py
            :: match execSync h (Postinstall.python_venv_cmd h py) with
               | ExecOk => [Postinstall.pip_install_cmd h]
               | ExecFail _ => []
               end)).
  { destruct (decide (status (spawnSync h "uv" ["--version"]) = Some 0))
      as [Huv | Hpip].
    - destruct (postinstall_main_calls h t0 py _ _ _ _ Hfind
                  (postinstall_main_steps h t0 py _ _ _ _ Hfind
                     (provision_uv h (JS.Str py) Huv))) as [Hp He].
      split; [exact Hp |]. split; [intros _; exact He | done].
    - destruct (postinstall_main_calls h t0 py _ _ _ _ Hfind
                  (postinstall_main_steps h t0 py _ _ _ _ Hfind
                     (provision_pip h (JS.Str py) Hpip))) as [Hp He].
      split; [exact Hp |]. split; [done | intros _; exact He]. }
  destruct Hcalls as (Hp & Huv & Hpip).
  repeat split; try assumption; apply status_is_zero_iff.
Qed.

Lemma C7_installer_selection_witness :
  exec_calls
    (Postinstall.main
       (Sample.install_host Sample.probe_python3_and_uv
          (fun _ => ExecOk))).1
  = ["uv venv " +:+ dquote +:+ "/opt/webssh/python/.venv" +:+ dquote;
     "uv pip install --python " +:+ dquote +:+ "/opt/webssh/python/.venv"
     +:+ dquote +:+ " fastapi uvicorn websockets"]
  /\ exec_calls
       (Postinstall.main
          (Sample.install_host Sample.probe_python_only
             (fun _ => ExecOk))).1
     = ["python -m venv " +:+ dquote +:+ "/opt/webssh/python/.venv"
        +:+ dquote;
        dquote +:+ "/opt/webssh/python/.venv/bin/pip" +:+ dquote
        +:+ " install fastapi uvicorn websockets"].
Proof.
  split.
  - destruct (C7_installer_selection
                (Sample.install_host Sample.probe_python3_and_uv
                   (fun _ => ExecOk))
                _ "python3" eq_refl) as (_ & _ & _ & Huv & _).
    exact (Huv eq_refl).
  - destruct (C7_installer_selection
                (Sample.install_host Sample.probe_python_only
                   (fun _ => ExecOk))
                _ "python" eq_refl) as (_ & _ & _ & _ & Hpip & _).
    apply Hpip. discriminate.
Defined.

(** C8: when the command that creates the environment fails, or the one
    that installs the packages fails after it, the script reports
    [Failed to set up environment with uv:] (or [pip:]) followed by the
    message of the failed command and exits with code 1.  The error
    report is the only thing that happens after the failed command: no
    further command is run, so nothing is cleaned up. *)
Theorem C8_provisioning_failure (h : host) (t0 : list event)
    (py message : string) :
  Postinstall.findPython h = (t0, Ret (JS.Str py)) ->
  (status (spawnSync h "uv" ["--version"]) = Some 0 ->
   (execSync h (Postinstall.uv_venv_cmd h) = ExecFail message ->
    exists before,
      Postinstall.main h
      = (before
           ++ [ExecSync (Postinstall.uv_venv_cmd h) (Postinstall.pythonDir h);
               ConsoleError
                 ("Failed to set up environment with uv: " +:+ message)],
         Exit 1)
      /\ exec_calls before = [])
   /\ (execSync h (Postinstall.uv_venv_cmd h) = ExecOk ->
       execSync h (Postinstall.uv_install_cmd h) = ExecFail message ->
       exists before,
         Postinstall.main h
         = (before
              ++ [ExecSync (Postinstall.uv_install_cmd h)
                    (Postinstall.pythonDir h);
                  ConsoleError
                    ("Failed to set up environment with uv: " +:+ message)],
            Exit 1)
         /\ exec_calls before = [Postinstall.uv_venv_cmd h]))
  /\ (status (spawnSync h "uv" ["--version"]) ≠ Some 0 ->
      (execSync h (Postinstall.python_venv_cmd h py) = ExecFail message ->
       exists before,
         Postinstall.main h
         = (before
              ++ [ExecSync (Postinstall.python_venv_cmd h py)
                    (Postinstall.pythonDir h);
                  ConsoleError
                    ("Failed to set up environment with pip: "
                     +:+ message)],
            Exit 1)
         /\ exec_calls before = [])
      /\ (execSync h (Postinstall.python_venv_cmd h py) = ExecOk ->
          execSync h (Postinstall.pip_install_cmd h) = ExecFail message ->
          exists before,
            Postinstall.main h
            = (before
                 ++ [ExecSync (Postinstall.pip_install_cmd h)
                       (Postinstall.pythonDir h);
                     ConsoleError
                       ("Failed to set up environment with pip: "
                        +:+ message)],
               Exit 1)
            /\ exec_calls before = [Postinstall.python_venv_cmd h py])).
Proof.
  intros Hfind.
  destruct (findPython_found_nonempty h t0 py Hfind) as [_ [tried Ht0]].
  assert (Hnone : forall suffix,
             exec_calls (ConsoleLog "Setting up WebSSH Python environment..."
                           :: t0 ++ suffix)
             = exec_calls suffix).
  { intros suffix. rewrite Ht0, app_comm_cons, exec_calls_app.
    cbn. by rewrite exec_calls_version_probes. }
  split.
  - intros Huv.
    pose proof (postinstall_main_steps h t0 py _ _ _ _ Hfind
                  (provision_uv h (JS.Str py) Huv)) as Hmain.
    split.
    + intros Hfail. rewrite Hfail in Hmain.
      eexists. split; [exact Hmain | by rewrite Hnone].
    + intros Hok Hfail. rewrite Hok, Hfail in Hmain.
      eexists. split; [exact Hmain | by rewrite Hnone].
  - intros Hpip.
    pose proof (postinstall_main_steps h t0 py _ _ _ _ Hfind
                  (provision_pip h (JS.Str py) Hpip)) as Hmain.
    split.
    + intros Hfail. cbn [JS.value_to_string] in Hmain.
      rewrite Hfail in Hmain.
      eexists. split; [exact Hmain | by rewrite Hnone].
    + intros Hok Hfail. cbn [JS.value_to_string] in Hmain.
      rewrite Hok, Hfail in Hmain.
      eexists. split; [exact Hmain | by rewrite Hnone].
Qed.

Lemma C8_provisioning_failure_witness :
  exists before,
    Postinstall.main
      (Sample.install_host Sample.probe_python3_and_uv
         (Sample.fails_on "uv pip" "Command failed: uv pip install"))
    = (before
         ++ [ExecSync
               ("uv pip install --python " +:+ dquote
                +:+ "/opt/webssh/python/.venv" +:+ dquote
                +:+ " fastapi uvicorn websockets")
               "/opt/webssh/python";
             ConsoleError
               "Failed to set up environment with uv: Command failed: uv pip install"],
       Exit 1)
    /\ exec_calls before
       = ["uv venv " +:+ dquote +:+ "/opt/webssh/python/.venv" +:+ dquote].
Proof.
  destruct (C8_provisioning_failure
              (Sample.install_host Sample.probe_python3_and_uv
                 (Sample.fails_on "uv pip" "Command failed: uv pip install"))
              _ "python3" "Command failed: uv pip install" eq_refl)
    as [Huv _].
  destruct (Huv eq_refl) as [_ Hinstall].
  exact (Hinstall eq_refl eq_refl).
Defined.

(** ** More about the argument loop *)

Lemma config_flag_not_port (a : string) :
  Webssh.is_config_flag a = true -> Webssh.is_port_flag a = false.
Proof.
  unfold Webssh.is_config_flag, Webssh.is_port_flag.
  destruct (String.eqb_spec a "-c") as [-> | _]; [done |].
  destruct (String.eqb_spec a "--config") as [-> | _]; done.
Qed.

(** X1: the usage text is printed exactly when a help flag stands where the
    loop reads an option, that is after arguments it consumed in whole
    iterations; the initial port and configuration play no part.  In
    every other case the loop prints nothing and returns a
    configuration. *)
Theorem parse_args_help_iff (args : list string) :
  forall port cfg,
    (Webssh.parse_args args port cfg = ([ConsoleLog Webssh.usage], Exit 0)
     <-> exists pre a post,
          args = pre ++ a :: post
          /\ Webssh.whole_options pre
          /\ Webssh.is_help_flag a = true)
    /\ ((exists port' cfg',
            Webssh.parse_args args port cfg = ([], Ret (port', cfg')))
        <-> ~ exists pre a post,
              args = pre ++ a :: post
              /\ Webssh.whole_options pre
              /\ Webssh.is_help_flag a = true).
Proof.
  assert (Hback : forall port cfg pre a post,
             Webssh.whole_options pre -> Webssh.is_help_flag a = true ->
             Webssh.parse_args (pre ++ a :: post) port cfg
             = ([ConsoleLog Webssh.usage], Exit 0)).
  { intros port cfg pre a post Hpre Hh.
    destruct (parse_args_whole pre Hpre (a :: post) port cfg)
      as (port' & cfg' & ->).
    by apply parse_args_help_first. }
  assert (Hforth : forall port cfg,
             Webssh.parse_args args port cfg
             = ([ConsoleLog Webssh.usage], Exit 0) ->
             exists pre a post,
               args = pre ++ a :: post
               /\ Webssh.whole_options pre
               /\ Webssh.is_help_flag a = true).
  { induction args as [| a | a b l IHl IHbl] using args_ind;
      intros port cfg.
    - intros [=].
    - simpl. destruct (Webssh.is_port_flag a); [intros [=] |].
      destruct (Webssh.is_config_flag a); [intros [=] |].
      destruct (Webssh.is_help_flag a) eqn:Hh; [| intros [=]].
      intros _. exists [], a, []. repeat split; [constructor | done].
    - cbn [Webssh.parse_args].
      destruct (Webssh.is_port_flag a) eqn:Hp.
      { intros (pre & a' & post & -> & Hpre & Hh)%IHl.
        exists (a :: b :: pre), a', post.
        repeat split; [by apply Webssh.whole_port | done]. }
      destruct (Webssh.is_config_flag a) eqn:Hc.
      { intros (pre & a' & post & -> & Hpre & Hh)%IHl.
        exists (a :: b :: pre), a', post.
        repeat split; [by apply Webssh.whole_config | done]. }
      destruct (Webssh.is_help_flag a) eqn:Hh.
      { intros _. exists [], a, (b :: l).
        repeat split; [constructor | done]. }
      intros (pre & a' & post & Hargs & Hpre & Hh')%IHbl.
      exists (a :: pre), a', post. rewrite Hargs.
      repeat split; [by apply Webssh.whole_other | done]. }
  intros port cfg. split; [split |].
  - apply Hforth.
  - intros (pre & a & post & -> & Hpre & Hh). by apply Hback.
  - split.
    + intros (port' & cfg' & Hret) (pre & a & post & -> & Hpre & Hh).
      rewrite (Hback port cfg pre a post Hpre Hh) in Hret. discriminate.
    + intros Hno.
      destruct (parse_args_outcome args port cfg) as [Hret | Hexit];
        [exact Hret |].
      destruct Hno. by apply (Hforth port cfg).
Qed.

Lemma parse_args_keeps_config (post : list string) :
  Forall (fun a => Webssh.is_config_flag a = false
                   /\ Webssh.is_help_flag a = false) post ->
  forall port cfg,
  exists port', Webssh.parse_args post port cfg = ([], Ret (port', cfg)).
Proof.
  induction post as [| a | a b l IHl IHbl] using args_ind;
    intros Hall port cfg.
  - by exists port.
  - apply Forall_cons in Hall as [[Hc Hh] _]. simpl. rewrite Hc, Hh.
    destruct (Webssh.is_port_flag a); by eexists.
  - apply Forall_cons in Hall as [[Hc Hh] Hbl].
    pose proof Hbl as [_ Hl]%Forall_cons.
    cbn [Webssh.parse_args]. rewrite Hc, Hh.
    destruct (Webssh.is_port_flag a); [by apply IHl | by apply IHbl].
Qed.

(** X2: the last option of a kind wins: after arguments consumed in whole
    iterations without a help flag, a [-p]/[--port] followed by [v], with
    no port option or help flag string anywhere after [v], leaves the
    port at [parseInt(v, 10)] whatever was set before; likewise a
    [-c]/[--config] followed by [v], with no config option or help flag
    string anywhere after [v], leaves the configuration path at [v]. *)
Theorem last_option_wins (pre : list string) (flag v : string)
    (post : list string) (port : JS.number) (cfg : JS.value) :
  Webssh.whole_options pre ->
  (Webssh.is_port_flag flag = true ->
   Forall (fun a => Webssh.is_port_flag a = false
                    /\ Webssh.is_help_flag a = false) post ->
   exists cfg',
     Webssh.parse_args (pre ++ flag :: v :: post) port cfg
     = ([], Ret (JS.parseInt (JS.Str v), cfg')))
  /\ (Webssh.is_config_flag flag = true ->
      Forall (fun a => Webssh.is_config_flag a = false
                       /\ Webssh.is_help_flag a = false) post ->
      exists port',
        Webssh.parse_args (pre ++ flag :: v :: post) port cfg
        = ([], Ret (port', JS.Str v))).
Proof.
  intros Hpre.
  destruct (parse_args_whole pre Hpre (flag :: v :: post) port cfg)
    as (port0 & cfg0 & ->).
  split.
  - intros Hflag Hpost. cbn [Webssh.parse_args]. rewrite Hflag.
    by apply parse_args_keeps_port.
  - intros Hflag Hpost. cbn [Webssh.parse_args].
    rewrite (config_flag_not_port flag Hflag), Hflag.
    by apply parse_args_keeps_config.
Qed.

Lemma last_option_wins_witness :
  exists cfg',
    Webssh.parse_args ["-p"; "1"; "-c"; "a.json"; "--port"; "8080"; "x"]
      (JS.Fin 8765) JS.Null
    = ([], Ret (JS.Fin 8080, cfg')).
Proof.
  destruct (last_option_wins ["-p"; "1"; "-c"; "a.json"] "--port" "8080"
              ["x"] (JS.Fin 8765) JS.Null) as [Hport _].
  { apply Webssh.whole_port; [reflexivity |].
    apply Webssh.whole_config; [reflexivity | reflexivity |].
    apply Webssh.whole_nil. }
  apply Hport; [reflexivity |].
  apply Forall_cons. split; [by split | apply Forall_nil_2].
Defined.

(** X3: when the interpreter exists and the arguments are a list the
    loop consumes in whole iterations without a help flag, followed by
    one last argument, that argument reads [undefined] if it is an option
    that takes a value: a trailing [-p]/[--port] makes the port [NaN],
    exported as such, and a trailing [-c]/[--config] discards any
    configuration path given before it, so that the child's
    [WEBSSH_CONFIG] is the inherited one. *)
Theorem trailing_option_reads_undefined (h : host) (pre : list string)
    (flag : string) :
  existsSync h (Webssh.posix_python h) = true
  \/ existsSync h (Webssh.windows_python h) = true ->
  drop 2 (argv h) = pre ++ [flag] ->
  Webssh.whole_options pre ->
  (Webssh.is_port_flag flag = true ->
   exists t call,
     Webssh.main h = (t, Ret tt)
     /\ spawn_calls t = [call]
     /\ spawn_env call !! "WEBSSH_PORT" = Some "NaN")
  /\ (Webssh.is_config_flag flag = true ->
      exists t call,
        Webssh.main h = (t, Ret tt)
        /\ spawn_calls t = [call]
        /\ spawn_env call !! "WEBSSH_CONFIG"
           = process_env h !! "WEBSSH_CONFIG").
Proof.
  intros Hex Hargs Hpre.
  destruct (resolve_python_found h Hex)
    as (probes & exe & Hres & _ & Hsp & _).
  destruct (parse_args_whole pre Hpre [flag] (JS.Fin 8765) JS.Null)
    as (port0 & cfg0 & Hwhole).
  rewrite <- Hargs in Hwhole.
  split; intros Hflag.
  - assert (Hparse : Webssh.parse_args (drop 2 (argv h)) (JS.Fin 8765)
                       JS.Null = ([], Ret (JS.NaN, cfg0))).
    { rewrite Hwhole. cbn [Webssh.parse_args]. by rewrite Hflag. }
    eexists _, _. split; [exact (main_spawns h _ _ _ _ Hres Hparse) |].
    split; [by rewrite spawn_calls_app, Hsp, launch_spawn_calls |].
    cbn [spawn_env]. by rewrite child_env_port.
  - assert (Hparse : Webssh.parse_args (drop 2 (argv h)) (JS.Fin 8765)
                       JS.Null = ([], Ret (port0, JS.Undefined))).
    { rewrite Hwhole. cbn [Webssh.parse_args].
      by rewrite (config_flag_not_port flag Hflag), Hflag. }
    eexists _, _. split; [exact (main_spawns h _ _ _ _ Hres Hparse) |].
    split; [by rewrite spawn_calls_app, Hsp, launch_spawn_calls |].
    cbn [spawn_env]. by rewrite child_env_config.
Qed.

Lemma trailing_option_reads_undefined_witness :
  exists t call,
    Webssh.main (Sample.launch_host ∅ ["-c"; "/tmp/cfg.json"; "--config"])
    = (t, Ret tt)
    /\ spawn_calls t = [call]
    /\ spawn_env call !! "WEBSSH_CONFIG" = None.
Proof.
  destruct (trailing_option_reads_undefined
              (Sample.launch_host ∅ ["-c"; "/tmp/cfg.json"; "--config"])
              ["-c"; "/tmp/cfg.json"] "--config") as [_ Hconfig].
  - left. reflexivity.
  - reflexivity.
  - apply Webssh.whole_config; [reflexivity | reflexivity |].
    apply Webssh.whole_nil.
  - exact (Hconfig eq_refl).
Defined.

(** X4: arguments that are none of the six option strings are skipped: a
    vector made only of such arguments changes nothing and is never
    rejected. *)
Theorem unknown_arguments_ignored (args : list string) (port : JS.number)
    (cfg : JS.value) :
  Forall (fun a => Webssh.is_port_flag a = false
                   /\ Webssh.is_config_flag a = false
                   /\ Webssh.is_help_flag a = false) args ->
  Webssh.parse_args args port cfg = ([], Ret (port, cfg)).
Proof.
  induction 1 as [| a args (Hp & Hc & Hh) _ IH]; [reflexivity |].
  destruct args; cbn [Webssh.parse_args]; rewrite Hp, Hc, Hh;
    [reflexivity | exact IH].
Qed.

Lemma unknown_arguments_ignored_witness :
  Webssh.parse_args ["--prot"; "9000"; "-P"; "serve"] (JS.Fin 8765) JS.Null
  = ([], Ret (JS.Fin 8765, JS.Null)).
Proof.
  apply unknown_arguments_ignored.
  repeat (apply Forall_cons; split; [by repeat split |]).
  apply Forall_nil_2.
Defined.

(** ** Decimal numerals through [parseInt] and back *)

Lemma pretty_N_char_digit (d : N) :
  (d < 10)%N ->
  JS.is_digit (pretty_N_char d) = true
  /\ JS.digit_val (pretty_N_char d) = Z.of_N d.
Proof.
  intros Hd.
  assert (d = 0 \/ d = 1 \/ d = 2 \/ d = 3 \/ d = 4 \/ d = 5 \/ d = 6
          \/ d = 7 \/ d = 8 \/ d = 9)%N as Hcases by lia.
  repeat (destruct Hcases as [-> | Hcases]; [by split |]).
  subst d. by split.
Qed.

(** Reading the digits written by the pretty printer gives the number
    back, and then goes on with whatever follows them. *)
Lemma digits_prefix_pretty_go (x : N) :
  forall s,
    JS.digits_prefix (pretty_N_go x s) None
    = JS.digits_prefix s
        (if decide (x = 0)%N then None else Some (Z.of_N x)).
Proof.
  induction (N.lt_wf_0 x) as [x _ IH]; intros s.
  destruct (decide (x = 0)%N) as [-> | Hx]; [by rewrite pretty_N_go_0 |].
  rewrite pretty_N_go_step by lia.
  rewrite IH by (apply N.div_lt; lia).
  destruct (pretty_N_char_digit (x `mod` 10)%N) as [Hdigit Hval];
    [apply N.mod_lt; lia |].
  cbn [JS.digits_prefix]. rewrite Hdigit, Hval. f_equal. f_equal.
  pose proof (N.div_mod x 10 ltac:(lia)) as Hdm.
  destruct (decide (x `div` 10 = 0)%N) as [Hq | Hq];
    unfold default; cbn [from_option id]; lia.
Qed.

Lemma pretty_N_go_head (x : N) :
  forall s,
    (0 < x)%N ->
    exists c rest, pretty_N_go x s = String c rest /\ JS.is_digit c = true.
Proof.
  induction (N.lt_wf_0 x) as [x _ IH]; intros s Hx.
  rewrite pretty_N_go_step by done.
  destruct (decide (x `div` 10 = 0)%N) as [-> | Hq].
  - rewrite pretty_N_go_0. eexists _, _. split; [reflexivity |].
    apply pretty_N_char_digit, N.mod_lt. lia.
  - apply IH; [apply N.div_lt; lia | by apply N.neq_0_lt_0].
Qed.

(** A string that starts with a digit has no white space to trim and no
    sign to strip. *)
Lemma digit_head_untouched (c : ascii) (r : string) :
  JS.is_digit c = true ->
  JS.trimStart (String c r) = String c r
  /\ JS.strip_sign (String c r) = (false, String c r).
Proof.
  destruct c as [[] [] [] [] [] [] [] []]; intros Hd;
    vm_compute in Hd; try discriminate Hd;
    (split; [| reflexivity]);
    destruct r as [| c2 [| c3 r]]; reflexivity.
Qed.

Lemma minus_head_untouched (r : string) :
  JS.trimStart (String "-" r) = String "-" r.
Proof. destruct r as [| c2 [| c3 r]]; reflexivity. Qed.

Lemma parseInt_pretty_positive (p : positive) :
  JS.digits_prefix (pretty (Npos p)) None = Some (Zpos p)
  /\ JS.trimStart (pretty (Npos p)) = pretty (Npos p)
  /\ JS.strip_sign (pretty (Npos p)) = (false, pretty (Npos p)).
Proof.
  unfold pretty, pretty_N. rewrite decide_False by done.
  split.
  - rewrite digits_prefix_pretty_go, decide_False by done. reflexivity.
  - destruct (pretty_N_go_head (Npos p) "") as (c & rest & -> & Hd);
      [lia |].
    by apply digit_head_untouched.
Qed.

Lemma parseInt_pretty (n : Z) :
  - 2 ^ 53 < n < 2 ^ 53 -> JS.parseInt (JS.Str (pretty n)) = JS.Fin n.
Proof.
  intros Hn.
  unfold JS.parseInt, JS.value_to_string, JS.parseInt_string.
  destruct n as [| p | p].
  - reflexivity.
  - change (pretty (Z.pos p)) with (pretty (Npos p)).
    destruct (parseInt_pretty_positive p) as (Hdigits & -> & ->).
    rewrite Hdigits. unfold JS.to_number, JS.round_to_double.
    destruct (Z.ltb_spec (Z.pos p) (2 ^ 53)); [reflexivity | lia].
  - change (pretty (Z.neg p)) with (String "-" (pretty (Npos p))).
    rewrite minus_head_untouched. cbn [JS.strip_sign].
    destruct (parseInt_pretty_positive p) as (Hdigits & _ & _).
    rewrite Hdigits. unfold JS.to_number, JS.round_to_double.
    destruct (Z.ltb_spec (Z.pos p) (2 ^ 53)); [reflexivity | lia].
Qed.

(** X5: [parseInt] reads back the decimal numeral of every integer of
    magnitude below [2^53], so that [parseInt(n.toString(), 10)] is [n]
    for those integers. *)
Theorem parseInt_toString_roundtrip (n : Z) :
  - 2 ^ 53 < n < 2 ^ 53 ->
  JS.parseInt (JS.Str (pretty n)) = JS.Fin n
  /\ JS.parseInt (JS.Str (JS.toString (JS.Fin n))) = JS.Fin n.
Proof.
  intros Hn. split; [by apply parseInt_pretty |].
  rewrite toString_safe by done. by apply parseInt_pretty.
Qed.

Lemma parseInt_toString_roundtrip_witness :
  JS.parseInt (JS.Str (pretty (-4096))) = JS.Fin (-4096).
Proof. apply parseInt_toString_roundtrip. lia. Defined.

(** X6: end to end: when the interpreter exists, the arguments before a
    [-p]/[--port] are consumed in whole iterations without a help flag,
    that option is followed by the decimal numeral of an integer [n] of
    magnitude below [2^53], and no port option or help flag string comes
    after the numeral, the child is spawned with [WEBSSH_PORT] equal to
    that very numeral, except for [n = 8765], where the variable is left
    as inherited. *)
Theorem port_numeral_exported (h : host) (pre : list string)
    (flag : string) (n : Z) (post : list string) :
  existsSync h (Webssh.posix_python h) = true
  \/ existsSync h (Webssh.windows_python h) = true ->
  drop 2 (argv h) = pre ++ flag :: pretty n :: post ->
  Webssh.whole_options pre ->
  Webssh.is_port_flag flag = true ->
  - 2 ^ 53 < n < 2 ^ 53 ->
  Forall (fun a => Webssh.is_port_flag a = false
                   /\ Webssh.is_help_flag a = false) post ->
  exists t call,
    Webssh.main h = (t, Ret tt)
    /\ spawn_calls t = [call]
    /\ spawn_env call !! "WEBSSH_PORT"
       = if decide (n = 8765) then process_env h !! "WEBSSH_PORT"
         else Some (pretty n).
Proof.
  intros Hex Hargs Hpre Hflag Hn Hpost.
  destruct (resolve_python_found h Hex)
    as (probes & exe & Hres & _ & Hsp & _).
  destruct (parse_args_whole pre Hpre (flag :: pretty n :: post)
              (JS.Fin 8765) JS.Null) as (port0 & cfg0 & Hwhole).
  rewrite <- Hargs in Hwhole.
  destruct (parse_args_keeps_port post Hpost (JS.Fin n) cfg0)
    as [cfg Hrest].
  assert (Hparse : Webssh.parse_args (drop 2 (argv h)) (JS.Fin 8765)
                     JS.Null = ([], Ret (JS.Fin n, cfg))).
  { rewrite Hwhole. cbn [Webssh.parse_args]. rewrite Hflag.
    by rewrite (parseInt_pretty n Hn). }
  eexists _, _. split; [exact (main_spawns h _ _ _ _ Hres Hparse) |].
  split; [by rewrite spawn_calls_app, Hsp, launch_spawn_calls |].
  cbn [spawn_env]. rewrite child_env_port. cbn [JS.strict_ne].
  destruct (decide (n = 8765)) as [-> | Hne]; [reflexivity |].
  destruct (Z.eqb_spec n 8765); [done |]. cbn [negb].
  by rewrite toString_safe.
Qed.

Lemma port_numeral_exported_witness :
  exists t call,
    Webssh.main
      (Sample.launch_host ∅ ["-c"; "x"; "--port"; "9000"; "extra"])
    = (t, Ret tt)
    /\ spawn_calls t = [call]
    /\ spawn_env call !! "WEBSSH_PORT" = Some "9000".
Proof.
  apply (port_numeral_exported
           (Sample.launch_host ∅ ["-c"; "x"; "--port"; "9000"; "extra"])
           ["-c"; "x"] "--port" 9000 ["extra"]).
  - left. reflexivity.
  - reflexivity.
  - apply Webssh.whole_config; [reflexivity | reflexivity |].
    apply Webssh.whole_nil.
  - reflexivity.
  - lia.
  - apply Forall_cons. split; [by split | apply Forall_nil_2].
Defined.

(** ** What the launcher does to its environment and to the child *)

(** X7: the child's environment keeps every variable of the launcher's own
    environment and has at most the two variables [WEBSSH_PORT] and
    [WEBSSH_CONFIG] in addition. *)
Theorem child_env_domain (h : host) (port : JS.number) (cfg : JS.value) :
  dom (process_env h) ⊆ dom (Webssh.child_env h port cfg)
  /\ dom (Webssh.child_env h port cfg)
     ⊆ dom (process_env h) ∪ {["WEBSSH_PORT"; "WEBSSH_CONFIG"]}.
Proof.
  unfold Webssh.child_env.
  destruct (JS.truthy cfg), (JS.strict_ne port 8765);
    rewrite ?dom_insert_L; split; intros k; rewrite ?elem_of_union;
    rewrite ?elem_of_cons; rewrite ?elem_of_singleton; tauto.
Qed.

(** The handlers, whatever the events: they never throw; they exit with
    1 (an ['error'] event), with 0, or with the code of a ['close']
    event that was delivered; and each event they leave in the trace is a
    [kill] with [SIGINT] or [SIGTERM] or one line on the error stream. *)
Lemma event_loop_outcome (evs : list Webssh.async_event) :
  (forall msg, (Webssh.event_loop evs).2 ≠ Throw msg)
  /\ (forall code,
        (Webssh.event_loop evs).2 = Exit code ->
        code = 0 \/ code = 1 \/ Webssh.ChildClose (Some code) ∈ evs)
  /\ Forall (fun e => e = Kill "SIGINT" \/ e = Kill "SIGTERM"
                      \/ exists line, e = ConsoleError line)
       (Webssh.event_loop evs).1.
Proof.
  induction evs as [| ev evs (IHthrow & IHexit & IHtrace)].
  - repeat split; [done | done | constructor].
  - destruct ev as [s | message | code].
    + cbn [Webssh.event_loop].
      rewrite dispatch_signal, bind_ret. cbn [fst snd].
      split; [exact IHthrow |]. split.
      * intros code [? | [? | Hin]]%IHexit; auto.
        right; right. by apply list_elem_of_further.
      * apply Forall_cons. split; [destruct s; auto | exact IHtrace].
    + rewrite event_loop_error. cbn [fst snd].
      split; [done |]. split; [intros code [= <-]; auto |].
      apply Forall_cons. split; [eauto | constructor].
    + rewrite event_loop_close. cbn [fst snd].
      split; [done |]. split; [| constructor].
      intros c [= <-]. destruct code as [c |]; [| by left].
      rewrite or_zero_some. right; right. apply list_elem_of_here.
Qed.

(** X9: when a run of the launcher exits, the code is 1 (no interpreter,
    or an ['error'] event), 0 (usage, or a ['close'] without a code or
    with code 0), or the exit code carried by a ['close'] event it
    received. *)
Theorem run_exit_codes (h : host) (evs : list Webssh.async_event)
    (code : Z) :
  (Webssh.run h evs).2 = Exit code ->
  code = 0 \/ code = 1 \/ Webssh.ChildClose (Some code) ∈ evs.
Proof.
  destruct (event_loop_outcome evs) as (_ & Hexit & _).
  destruct (main_cases h)
    as [(t0 & exe & port & cfg & _ & _ & Hm & _)
       | [(t0 & exe & _ & Hm & _) | (_ & _ & Hm)]].
  - rewrite (run_running h _ evs Hm). cbn [snd]. apply Hexit.
  - rewrite (run_exited h _ _ evs Hm). cbn [snd]. intros [= <-]. auto.
  - rewrite (run_exited h _ _ evs Hm). cbn [snd]. intros [= <-]. auto.
Qed.

Lemma run_exit_codes_witness :
  (Webssh.run (Sample.launch_host ∅ [])
     [Webssh.Signal Webssh.SIGINT; Webssh.ChildClose (Some 42)]).2
  = Exit 42
  /\ (42 = 0 \/ 42 = 1
      \/ Webssh.ChildClose (Some 42)
         ∈ [Webssh.Signal Webssh.SIGINT; Webssh.ChildClose (Some 42)]).
Proof.
  split; [reflexivity |].
  apply (run_exit_codes (Sample.launch_host ∅ [])
           [Webssh.Signal Webssh.SIGINT; Webssh.ChildClose (Some 42)] 42).
  reflexivity.
Defined.

(** The resolution of the interpreter only probes the file system and, at
    worst, writes to the error stream; the path it yields is one of the
    two candidates. *)
Lemma resolve_python_trace (h : host) :
  Forall (fun e => (exists path, e = ExistsSync path)
                   \/ exists line, e = ConsoleError line)
    (Webssh.resolve_python h).1
  /\ (forall exe,
        (Webssh.resolve_python h).2 = Ret exe ->
        exe = Webssh.posix_python h \/ exe = Webssh.windows_python h).
Proof.
  destruct (existsSync h (Webssh.posix_python h)) eqn:Hp;
    [| destruct (existsSync h (Webssh.windows_python h)) eqn:Hw].
  - rewrite (resolve_python_posix h Hp). cbn [fst snd].
    split; [| intros exe [= <-]; by left].
    repeat (apply Forall_cons; split; [eauto |]). constructor.
  - rewrite (resolve_python_windows h Hp Hw). cbn [fst snd].
    split; [| intros exe [= <-]; by right].
    repeat (apply Forall_cons; split; [eauto |]). constructor.
  - rewrite (resolve_python_missing h Hp Hw). cbn [fst snd].
    split; [| intros exe [=]].
    repeat (apply Forall_cons; split; [eauto |]). constructor.
Qed.

(** Events that are neither child-process calls nor signals. *)
Lemma quiet_trace (t : list event) :
  Forall (fun e => (exists path, e = ExistsSync path)
                   \/ exists line, e = ConsoleError line) t ->
  spawn_calls t = [] /\ exec_calls t = [] /\ probe_calls t = []
  /\ forall s, Kill s ∉ t.
Proof.
  induction 1 as [| e t He _ (Hs & He' & Hp & Hk)].
  - repeat split. intros s. apply not_elem_of_nil.
  - destruct He as [[path ->] | [line ->]]; cbn; repeat split; auto;
      intros s [[=] | Hin]%elem_of_cons; by apply (Hk s).
Qed.

Lemma event_loop_quiet (evs : list Webssh.async_event) :
  exec_calls (Webssh.event_loop evs).1 = []
  /\ probe_calls (Webssh.event_loop evs).1 = [].
Proof.
  destruct (event_loop_outcome evs) as (_ & _ & Htrace).
  induction Htrace as [| e t He _ [IHe IHp]]; [done |].
  destruct He as [-> | [-> | [line ->]]]; by cbn.
Qed.

(** X10: in every run the launcher starts at most one child, always as
    [<interpreter> main.py] in the [python] directory with inherited
    standard streams and an environment built from the parsed
    configuration, and it never runs a shell command or a version
    probe. *)
Theorem run_child_processes (h : host) (evs : list Webssh.async_event) :
  (List.length (spawn_calls (Webssh.run h evs).1) <= 1)%nat
  /\ (forall call,
        call ∈ spawn_calls (Webssh.run h evs).1 ->
        (spawn_exe call = Webssh.posix_python h
         \/ spawn_exe call = Webssh.windows_python h)
        /\ spawn_args call = [Webssh.mainPy h]
        /\ spawn_cwd call = Webssh.pythonDir h
        /\ spawn_stdio call = "inherit"
        /\ exists port cfg,
            Webssh.parse_args (drop 2 (argv h)) (JS.Fin 8765) JS.Null
            = ([], Ret (port, cfg))
            /\ spawn_env call = Webssh.child_env h port cfg)
  /\ exec_calls (Webssh.run h evs).1 = []
  /\ probe_calls (Webssh.run h evs).1 = [].
Proof.
  destruct (resolve_python_trace h) as [Htrace Hexe].
  destruct (quiet_trace _ Htrace) as (Hsp & Hexec & Hprobe & _).
  destruct (event_loop_quiet evs) as [Hlexec Hlprobe].
  destruct (main_cases h)
    as [(t0 & exe & port & cfg & Hres & Hparse & Hm & _)
       | [(t0 & exe & Hres & Hm & _) | (_ & _ & Hm)]].
  - rewrite (run_running h _ evs Hm). rewrite Hres in *.
    cbn [fst snd] in *.
    rewrite !spawn_calls_app, !exec_calls_app, !probe_calls_app.
    rewrite Hsp, Hexec, Hprobe, Hlexec, Hlprobe, event_loop_no_spawn.
    rewrite launch_spawn_calls. cbn. split; [lia |]. split; [| done].
    intros call ->%list_elem_of_singleton. cbn.
    split; [by apply Hexe |]. do 3 (split; [reflexivity |]).
    by exists port, cfg.
  - rewrite (run_exited h _ _ evs Hm). rewrite Hres in *.
    cbn [fst snd] in *.
    rewrite !spawn_calls_app, !exec_calls_app, !probe_calls_app.
    rewrite Hsp, Hexec, Hprobe. cbn. split; [lia |]. split; [| done].
    by intros call ?%elem_of_nil.
  - rewrite (run_exited h _ _ evs Hm). cbn [fst].
    rewrite Hsp, Hexec, Hprobe. cbn. split; [lia |]. split; [| done].
    by intros call ?%elem_of_nil.
Qed.

Lemma prefix_without (x : event) (p l t1 t2 : list event) :
  p ++ l = t1 ++ x :: t2 -> x ∉ p ->
  exists t1', t1 = p ++ t1' /\ l = t1' ++ x :: t2.
Proof.
  revert t1. induction p as [| a p IH]; intros t1 Heq Hnot.
  - by exists t1.
  - destruct t1 as [| b t1]; cbn in Heq; injection Heq as -> Heq.
    + destruct Hnot. apply list_elem_of_here.
    + destruct (IH t1 Heq) as (t1' & -> & ->).
      * intros Hin. apply Hnot. by apply list_elem_of_further.
      * by exists t1'.
Qed.

(** X11: the launcher signals only a child it has spawned: every [kill] in
    the trace of a run comes after the [spawn], and its signal is
    [SIGINT] or [SIGTERM]. *)
Theorem kill_only_after_spawn (h : host) (evs : list Webssh.async_event)
    (t1 t2 : list event) (s : string) :
  (Webssh.run h evs).1 = t1 ++ Kill s :: t2 ->
  (s = "SIGINT" \/ s = "SIGTERM")
  /\ exists call, Spawn call ∈ t1.
Proof.
  destruct (resolve_python_trace h) as [Htrace _].
  destruct (quiet_trace _ Htrace) as (_ & _ & _ & Hnokill).
  destruct (event_loop_outcome evs) as (_ & _ & Hloop).
  destruct (main_cases h)
    as [(t0 & exe & port & cfg & Hres & Hparse & Hm & _)
       | [(t0 & exe & Hres & Hm & _) | (_ & _ & Hm)]].
  - rewrite (run_running h _ evs Hm). rewrite Hres in Hnokill.
    cbn [fst] in *. intros Heq.
    apply prefix_without in Heq as (t1' & -> & Hl).
    + split.
      * rewrite Hl in Hloop. apply Forall_app in Hloop as [_ Hloop].
        apply Forall_cons in Hloop as [[[= ->] | [[= ->] | [? [=]]]] _];
          auto.
      * eexists. rewrite !elem_of_app. left; right. cbn.
        do 2 apply list_elem_of_further. apply list_elem_of_here.
    + intros [Hin | Hin]%elem_of_app; [by apply (Hnokill s) |].
      cbn in Hin. repeat (apply elem_of_cons in Hin as [[=] | Hin]).
      by apply elem_of_nil in Hin.
  - rewrite (run_exited h _ _ evs Hm). rewrite Hres in Hnokill.
    cbn [fst] in *. intros Heq.
    assert (Hin : Kill s ∈ t0 ++ [ConsoleLog Webssh.usage]).
    { rewrite Heq, elem_of_app. right. apply list_elem_of_here. }
    apply elem_of_app in Hin as [Hin | Hin]; [by destruct (Hnokill s) |].
    apply elem_of_cons in Hin as [[=] | Hin]. by apply elem_of_nil in Hin.
  - rewrite (run_exited h _ _ evs Hm). cbn [fst]. intros Heq.
    destruct (Hnokill s). rewrite Heq, elem_of_app. right.
    apply list_elem_of_here.
Qed.

Lemma kill_only_after_spawn_witness :
  exists call,
    Spawn call
    ∈ (Webssh.main (Sample.launch_host ∅ [])).1 ++ [Kill "SIGINT"].
Proof.
  destruct (kill_only_after_spawn (Sample.launch_host ∅ [])
              [Webssh.Signal Webssh.SIGINT; Webssh.Signal Webssh.SIGTERM]
              ((Webssh.main (Sample.launch_host ∅ [])).1 ++ [Kill "SIGINT"])
              [] "SIGTERM" eq_refl) as [_ Hspawn].
  exact Hspawn.
Defined.

(** X12: when the script returns, its trace is the interpreter probes, then
    the two announcement lines, then the [spawn] as the last event; the
    port announced is the string of the parsed port, the same string that
    is exported whenever the port is exported. *)
Theorem launch_announcement (h : host) (t : list event) :
  Webssh.main h = (t, Ret tt) ->
  exists probes call port cfg,
    Webssh.parse_args (drop 2 (argv h)) (JS.Fin 8765) JS.Null
    = ([], Ret (port, cfg))
    /\ t = probes
           ++ [ConsoleLog
                 ("Starting WebSSH on port " +:+ JS.toString port +:+ "...");
               ConsoleLog
                 ("Open http://localhost:" +:+ JS.toString port
                  +:+ "/ in your browser");
               Spawn call]
    /\ Forall (fun e => exists path, e = ExistsSync path) probes
    /\ (JS.strict_ne port 8765 = true ->
        spawn_env call !! "WEBSSH_PORT" = Some (JS.toString port)).
Proof.
  intros (t0 & exe & port & cfg & Hres & Hparse & -> & _)%main_running.
  eexists t0, _, port, cfg. split; [exact Hparse |].
  split; [reflexivity |]. split.
  - destruct (existsSync h (Webssh.posix_python h)) eqn:Hp;
      [| destruct (existsSync h (Webssh.windows_python h)) eqn:Hw].
    + rewrite (resolve_python_posix h Hp) in Hres. injection Hres as <- _.
      repeat (apply Forall_cons; split; [eauto |]). constructor.
    + rewrite (resolve_python_windows h Hp Hw) in Hres.
      injection Hres as <- _.
      repeat (apply Forall_cons; split; [eauto |]). constructor.
    + rewrite (resolve_python_missing h Hp Hw) in Hres. discriminate.
  - intros Hne. cbn [spawn_env]. by rewrite child_env_port, Hne.
Qed.

Lemma launch_announcement_witness :
  exists probes call,
    (Webssh.main (Sample.launch_host ∅ ["-p"; "abc"])).1
    = probes
        ++ [ConsoleLog "Starting WebSSH on port NaN...";
            ConsoleLog "Open http://localhost:NaN/ in your browser";
            Spawn call]
    /\ spawn_env call !! "WEBSSH_PORT" = Some "NaN".
Proof.
  destruct (launch_announcement (Sample.launch_host ∅ ["-p"; "abc"])
              _ eq_refl)
    as (probes & call & port & cfg & Hparse & Ht & _ & Henv).
  injection Hparse as <- <-.
  exists probes, call. split; [exact Ht | by apply Henv].
Defined.

(** ** More about the provisioner *)

Lemma postinstall_main_not_found (h : host) (t0 : list event) :
  Postinstall.findPython h = (t0, Ret JS.Null) ->
  Postinstall.main h
  = (ConsoleLog "Setting up WebSSH Python environment..."
       :: t0 ++ [ConsoleError "Error: Python 3 is required but not found.";
                 ConsoleError "Please install Python 3.10 or later."],
     Exit 1).
Proof.
  intros Hfind. unfold Postinstall.main.
  rewrite console_log_bind, Hfind, bind_ret. reflexivity.
Qed.

(** How [findPython] can end, with the trace it leaves. *)
Lemma findPython_cases (h : host) :
  exists tried,
    Postinstall.findPython h
    = (Postinstall.version_probe <$> tried, Ret JS.Null)
    \/ exists py,
        py ∈ Postinstall.pythonCommands
        /\ Postinstall.findPython h
           = (Postinstall.version_probe <$> tried, Ret (JS.Str py)).
Proof.
  unfold Postinstall.findPython.
  destruct (findPython_loop_result h Postinstall.pythonCommands)
    as (tried & Ht & Hr).
  exists tried.
  destruct (Postinstall.findPython_loop h Postinstall.pythonCommands)
    as [t r]. cbn [fst snd] in Ht, Hr. subst t.
  destruct Hr as [-> | (py & Hin & ->)]; [by left | right; by exists py].
Qed.

(** The two shell commands of the installer that is chosen, with the
    banner and the label that go with them, and the script in terms of
    them. *)
Lemma postinstall_main_chosen (h : host) (t0 : list event) (py : string) :
  Postinstall.findPython h = (t0, Ret (JS.Str py)) ->
  exists banner c1 c2 label,
    Postinstall.main h
    = match execSync h c1 with
      | ExecFail m =>
          ((ConsoleLog "Setting up WebSSH Python environment..."
              :: t0 ++ [ConsoleLog ("Found " +:+ py);
                        SpawnSync "uv" ["--version"]; ConsoleLog banner])
             ++ [ExecSync c1 (Postinstall.pythonDir h);
                 ConsoleError (label +:+ " " +:+ m)],
           Exit 1)
      | ExecOk =>
          match execSync h c2 with
          | ExecFail m =>
              ((ConsoleLog "Setting up WebSSH Python environment..."
                  :: t0 ++ [ConsoleLog ("Found " +:+ py);
                            SpawnSync "uv" ["--version"]; ConsoleLog banner;
                            ExecSync c1 (Postinstall.pythonDir h)])
                 ++ [ExecSync c2 (Postinstall.pythonDir h);
                     ConsoleError (label +:+ " " +:+ m)],
               Exit 1)
          | ExecOk =>
              (ConsoleLog "Setting up WebSSH Python environment..."
                 :: t0 ++ [ConsoleLog ("Found " +:+ py);
                           SpawnSync "uv" ["--version"]; ConsoleLog banner;
                           ExecSync c1 (Postinstall.pythonDir h);
                           ExecSync c2 (Postinstall.pythonDir h);
                           ConsoleLog "";
                           ConsoleLog "WebSSH installation complete!";
                           ConsoleLog
                             ("Run " +:+ dquote +:+ "webssh" +:+ dquote
                              +:+ " to start the server.")],
               Ret tt)
          end
      end.
Proof.
  intros Hfind.
  destruct (decide (status (spawnSync h "uv" ["--version"]) = Some 0))
    as [Huv | Hpip].
  - eexists _, _, _, _.
    exact (postinstall_main_steps h t0 py _ _ _ _ Hfind
             (provision_uv h (JS.Str py) Huv)).
  - eexists _, _, _, _.
    exact (postinstall_main_steps h t0 py _ _ _ _ Hfind
             (provision_pip h (JS.Str py) Hpip)).
Qed.

(** X13: whatever the host answers, the provisioning script either runs to
    its end or calls [process.exit(1)]: no exception escapes it (neither
    the failure of a shell command nor a probe without output), and it
    exits with no other code. *)
Theorem postinstall_outcome (h : host) :
  (Postinstall.main h).2 = Ret tt \/ (Postinstall.main h).2 = Exit 1.
Proof.
  destruct (findPython_cases h) as (tried & [Hfind | (py & _ & Hfind)]).
  - rewrite (postinstall_main_not_found h _ Hfind). by right.
  - destruct (postinstall_main_chosen h _ py Hfind)
      as (banner & c1 & c2 & label & ->).
    destruct (execSync h c1); [destruct (execSync h c2) |]; auto.
Qed.

(** X14: every effect of the provisioning script is a console line, a
    [--version] probe or a shell command run in the [python] directory:
    it never looks at the file system, never starts a long-lived child
    and never signals one. *)
Theorem postinstall_effects (h : host) :
  Forall (fun e =>
            (exists line, e = ConsoleLog line)
            \/ (exists line, e = ConsoleError line)
            \/ (exists cmd, e = SpawnSync cmd ["--version"])
            \/ exists cmd, e = ExecSync cmd (Postinstall.pythonDir h))
    (Postinstall.main h).1.
Proof.
  assert (Hprobes : forall tried,
             Forall (fun e =>
                       (exists line, e = ConsoleLog line)
                       \/ (exists line, e = ConsoleError line)
                       \/ (exists cmd, e = SpawnSync cmd ["--version"])
                       \/ exists cmd,
                           e = ExecSync cmd (Postinstall.pythonDir h))
               (Postinstall.version_probe <$> tried)).
  { intros tried. apply Forall_fmap, Forall_true. intros cmd. cbn.
    right; right; left. by exists cmd. }
  destruct (findPython_cases h) as (tried & [Hfind | (py & _ & Hfind)]).
  - rewrite (postinstall_main_not_found h _ Hfind). cbn [fst].
    apply Forall_cons. split; [eauto |]. apply Forall_app. split; [done |].
    repeat (apply Forall_cons; split; [eauto 6 |]). constructor.
  - destruct (postinstall_main_chosen h _ py Hfind)
      as (banner & c1 & c2 & label & ->).
    destruct (execSync h c1); [destruct (execSync h c2) |]; cbn [fst];
      repeat first
        [ apply Forall_nil_2
        | apply Hprobes
        | apply Forall_cons; split; [eauto 6 |]
        | apply Forall_app; split ].
Qed.

(** X15: the successful run: when Python is found and both shell commands of
    the chosen installer succeed, the script runs exactly those two
    commands, prints the closing lines and returns without calling
    [process.exit]. *)
Theorem postinstall_success (h : host) (t0 : list event) (py : string) :
  Postinstall.findPython h = (t0, Ret (JS.Str py)) ->
  (status (spawnSync h "uv" ["--version"]) = Some 0 ->
   execSync h (Postinstall.uv_venv_cmd h) = ExecOk ->
   execSync h (Postinstall.uv_install_cmd h) = ExecOk ->
   Postinstall.main h
   = (ConsoleLog "Setting up WebSSH Python environment..."
        :: t0 ++ [ConsoleLog ("Found " +:+ py);
                  SpawnSync "uv" ["--version"];
                  ConsoleLog "Using uv for faster installation...";
                  ExecSync (Postinstall.uv_venv_cmd h)
                    (Postinstall.pythonDir h);
                  ExecSync (Postinstall.uv_install_cmd h)
                    (Postinstall.pythonDir h);
                  ConsoleLog "";
                  ConsoleLog "WebSSH installation complete!";
                  ConsoleLog
                    ("Run " +:+ dquote +:+ "webssh" +:+ dquote
                     +:+ " to start the server.")],
      Ret tt))
  /\ (status (spawnSync h "uv" ["--version"]) ≠ Some 0 ->
      execSync h (Postinstall.python_venv_cmd h py) = ExecOk ->
      execSync h (Postinstall.pip_install_cmd h) = ExecOk ->
      Postinstall.main h
      = (ConsoleLog "Setting up WebSSH Python environment..."
           :: t0 ++ [ConsoleLog ("Found " +:+ py);
                     SpawnSync "uv" ["--version"];
                     ConsoleLog "Using pip for installation...";
                     ExecSync (Postinstall.python_venv_cmd h py)
                       (Postinstall.pythonDir h);
                     ExecSync (Postinstall.pip_install_cmd h)
                       (Postinstall.pythonDir h);
                     ConsoleLog "";
                     ConsoleLog "WebSSH installation complete!";
                     ConsoleLog
                       ("Run " +:+ dquote +:+ "webssh" +:+ dquote
                        +:+ " to start the server.")],
         Ret tt)).
Proof.
  intros Hfind. split.
  - intros Huv Hvenv Hinstall.
    rewrite (postinstall_main_steps h t0 py _ _ _ _ Hfind
               (provision_uv h (JS.Str py) Huv)).
    by rewrite Hvenv, Hinstall.
  - intros Hpip Hvenv Hinstall.
    rewrite (postinstall_main_steps h t0 py _ _ _ _ Hfind
               (provision_pip h (JS.Str py) Hpip)).
    cbn [JS.value_to_string]. by rewrite Hvenv, Hinstall.
Qed.

Lemma postinstall_success_witness :
  Postinstall.main
    (Sample.install_host Sample.probe_python_only (fun _ => ExecOk))
  = ([ConsoleLog "Setting up WebSSH Python environment...";
      SpawnSync "python3" ["--version"];
      SpawnSync "python" ["--version"];
      ConsoleLog "Found python";
      SpawnSync "uv" ["--version"];
      ConsoleLog "Using pip for installation...";
      ExecSync
        ("python -m venv " +:+ dquote +:+ "/opt/webssh/python/.venv"
         +:+ dquote)
        "/opt/webssh/python";
      ExecSync
        (dquote +:+ "/opt/webssh/python/.venv/bin/pip" +:+ dquote
         +:+ " install fastapi uvicorn websockets")
        "/opt/webssh/python";
      ConsoleLog "";
      ConsoleLog "WebSSH installation complete!";
      ConsoleLog
        ("Run " +:+ dquote +:+ "webssh" +:+ dquote
         +:+ " to start the server.")],
     Ret tt).
Proof.
  destruct (postinstall_success
              (Sample.install_host Sample.probe_python_only
                 (fun _ => ExecOk))
              _ "python" eq_refl) as [_ Hpip].
  apply Hpip; [discriminate | reflexivity | reflexivity].
Defined.

Lemma parse_args_help_iff_witness :
  Webssh.parse_args ["-p"; "-h"; "x"; "--help"; "-c"] (JS.Fin 8765) JS.Null
  = ([ConsoleLog Webssh.usage], Exit 0).
Proof.
  apply (parse_args_help_iff ["-p"; "-h"; "x"; "--help"; "-c"]).
  exists ["-p"; "-h"; "x"], "--help", ["-c"].
  split; [reflexivity |]. split; [| reflexivity].
  apply Webssh.whole_port; [reflexivity |].
  apply Webssh.whole_other; [reflexivity | reflexivity | reflexivity |].
  apply Webssh.whole_nil.
Defined.

Lemma run_child_processes_witness :
  {| spawn_exe := "/opt/webssh/python/.venv/bin/python";
     spawn_args := ["/opt/webssh/python/main.py"];
     spawn_cwd := "/opt/webssh/python";
     spawn_env := ∅;
     spawn_stdio := "inherit" |}
  ∈ spawn_calls
      (Webssh.run (Sample.launch_host ∅ []) [Webssh.Signal Webssh.SIGINT]).1
  /\ ["/opt/webssh/python/main.py"]
     = [Webssh.mainPy (Sample.launch_host ∅ [])].
Proof.
  assert (Hin :
    {| spawn_exe := "/opt/webssh/python/.venv/bin/python";
       spawn_args := ["/opt/webssh/python/main.py"];
       spawn_cwd := "/opt/webssh/python";
       spawn_env := ∅;
       spawn_stdio := "inherit" |}
    ∈ spawn_calls
        (Webssh.run (Sample.launch_host ∅ [])
           [Webssh.Signal Webssh.SIGINT]).1).
  { cbn. apply list_elem_of_here. }
  split; [exact Hin |].
  exact (proj1 (proj2 (proj1 (proj2
           (run_child_processes (Sample.launch_host ∅ [])
              [Webssh.Signal Webssh.SIGINT])) _ Hin))).
Defined.

(** ** Substrings and numerals with something after them *)

Lemma prefix_iff (needle : string) :
  forall hay,
    String.prefix needle hay = true <-> exists post, hay = needle +:+ post.
Proof.
  induction needle as [| a needle IH]; intros hay.
  - split; [intros _; by exists hay | by destruct hay].
  - destruct hay as [| b hay]; cbn [String.prefix].
    + split; [done | intros (post & [=])].
    + destruct (ascii_dec a b) as [-> | Hne].
      * rewrite IH. split.
        -- intros (post & ->). by exists post.
        -- intros (post & [= ->]). by exists post.
      * split; [done | intros (post & [= ? _]); done].
Qed.

(** [includes] holds exactly when the needle occurs somewhere in the
    string. *)
Lemma includes_iff (hay needle : string) :
  JS.includes hay needle = true
  <-> exists pre post, hay = pre +:+ needle +:+ post.
Proof.
  induction hay as [| c hay IH]; cbn [JS.includes].
  - rewrite orb_false_r, prefix_iff. split.
    + intros (post & ->). by exists "", post.
    + intros ([| c pre] & post & Heq); [by exists post | done].
  - rewrite orb_true_iff, prefix_iff, IH. split.
    + intros [(post & ->) | (pre & post & ->)].
      * by exists "", post.
      * by exists (String c pre), post.
    + intros ([| c' pre] & post & Heq).
      * left. by exists post.
      * injection Heq as -> ->. right. by exists pre, post.
Qed.

(** X16: a candidate is taken at its own probe exactly when that probe exits
    with status 0 and [Python 3] occurs somewhere in its standard output:
    nothing else of the output is looked at (no minor version, no
    position), and a probe without output is passed over, not an
    error. *)
Theorem findPython_accepts_iff (h : host) (cmd : string)
    (rest : list string) :
  Postinstall.findPython_loop h (cmd :: rest)
  = ([SpawnSync cmd ["--version"]], Ret (JS.Str cmd))
  <-> status (spawnSync h cmd ["--version"]) = Some 0
      /\ exists pre post,
          stdout (spawnSync h cmd ["--version"])
          = Some (pre +:+ "Python 3" +:+ post).
Proof.
  rewrite findPython_loop_cons.
  assert (Hq : Postinstall.qualifies (spawnSync h cmd ["--version"]) = true
               <-> status (spawnSync h cmd ["--version"]) = Some 0
                   /\ exists pre post,
                       stdout (spawnSync h cmd ["--version"])
                       = Some (pre +:+ "Python 3" +:+ post)).
  { unfold Postinstall.qualifies.
    destruct (spawnSync h cmd ["--version"]) as [[c |] [out |]]; cbn.
    - rewrite andb_true_iff, includes_iff, Z.eqb_eq. split.
      + intros [-> (pre & post & ->)]. split; [done | by exists pre, post].
      + intros [[= ->] (pre & post & [= ->])].
        split; [done | by exists pre, post].
    - split; [done | intros [_ (pre & post & [=])]].
    - split; [done | intros [[=] _]].
    - split; [done | intros [[=] _]]. }
  destruct (Postinstall.qualifies (spawnSync h cmd ["--version"])).
  - split; [intros _; by apply Hq | done].
  - split; [| intros Hyes; by apply Hq in Hyes].
    destruct rest as [| cmd' rest]; [intros [=] |].
    rewrite findPython_loop_cons.
    destruct (Postinstall.qualifies (spawnSync h cmd' ["--version"]));
      intros [=].
Qed.

Lemma findPython_accepts_iff_witness :
  Postinstall.findPython_loop
    (Sample.install_host (fun _ => Sample.prints "Python 3.6.9")
       (fun _ => ExecOk))
    ["python3"; "python"]
  = ([SpawnSync "python3" ["--version"]], Ret (JS.Str "python3")).
Proof.
  apply (findPython_accepts_iff
           (Sample.install_host (fun _ => Sample.prints "Python 3.6.9")
              (fun _ => ExecOk))
           "python3" ["python"]).
  split; [reflexivity |]. by exists "", ".6.9".
Defined.

Lemma pretty_N_go_app (x : N) :
  forall s, pretty_N_go x s = pretty_N_go x "" +:+ s.
Proof.
  assert (Happ : forall a c s,
             (a +:+ String c "") +:+ s = a +:+ String c s).
  { intros a c s. induction a as [| b a IH]; [reflexivity |].
    change (String b ((a +:+ String c "") +:+ s) = String b (a +:+ String c s)).
    by rewrite IH. }
  induction (N.lt_wf_0 x) as [x _ IH]; intros s.
  destruct (decide (x = 0)%N) as [-> | Hx]; [by rewrite !pretty_N_go_0 |].
  rewrite !(pretty_N_go_step x) by lia.
  rewrite (IH (x `div` 10)%N ltac:(apply N.div_lt; lia) (String _ s)).
  rewrite (IH (x `div` 10)%N ltac:(apply N.div_lt; lia) (String _ "")).
  by rewrite Happ.
Qed.

(** X17: [parseInt] stops at the first character that is not a digit: the
    numeral of a non-negative integer below [2^53] followed by anything
    that does not start with a digit parses as that integer, so
    [-p 8080abc] is accepted as port 8080. *)
Theorem parseInt_ignores_suffix (n : Z) (junk : string) :
  0 <= n < 2 ^ 53 ->
  match junk with
  | String c _ => JS.is_digit c = false
  | EmptyString => True
  end ->
  JS.parseInt (JS.Str (pretty n +:+ junk)) = JS.Fin n.
Proof.
  intros Hn Hjunk.
  assert (Hstop : forall acc, JS.digits_prefix junk acc = acc).
  { intros acc. destruct junk as [| c junk]; [reflexivity |].
    cbn [JS.digits_prefix]. by rewrite Hjunk. }
  unfold JS.parseInt, JS.value_to_string, JS.parseInt_string.
  destruct n as [| p | p]; [| | lia].
  - change (pretty 0 +:+ junk) with (String "0" junk).
    destruct (digit_head_untouched "0" junk eq_refl) as [-> ->].
    cbn [JS.digits_prefix]. change (JS.is_digit "0") with true.
    cbn match. by rewrite Hstop.
  - change (pretty (Z.pos p)) with (pretty (Npos p)).
    unfold pretty, pretty_N. rewrite decide_False by done.
    rewrite <- pretty_N_go_app.
    destruct (pretty_N_go_head (Npos p) junk) as (c & rest & Heq & Hd);
      [lia |].
    rewrite Heq.
    destruct (digit_head_untouched c rest Hd) as [-> ->].
    rewrite <- Heq, digits_prefix_pretty_go, decide_False by done.
    rewrite Hstop. change (Z.of_N (N.pos p)) with (Z.pos p).
    unfold JS.to_number, JS.round_to_double.
    destruct (Z.ltb_spec (Z.pos p) (2 ^ 53)); [reflexivity | lia].
Qed.

Lemma parseInt_ignores_suffix_witness :
  JS.parseInt (JS.Str "8080abc") = JS.Fin 8080.
Proof.
  apply (parseInt_ignores_suffix 8080 "abc"); [lia | reflexivity].
Defined.
